(** * Triangle vertex inference from Hough line segments

    A shallow embedding of [src/triangle_detector.py]: the helpers
    [get_line_length], [get_line_angle], [merge_similar_lines],
    [find_line_intersection] and the pipeline [find_triangle_vertices].

    Numbers.  Segment endpoints and image dimensions are Python integers
    ([Z]).  Every value that the program holds in a binary64 float (lengths,
    angles, the centroid, distances, the parameter [t]) is modelled by the
    real number it approximates ([R]): rounding is not modelled.  [int(...)]
    is truncation towards zero, [%] is Python's floored remainder, and the
    numpy calls are their mathematical functions.

    Output.  [print] appends a line to the standard output, which is threaded
    through [find_triangle_vertices] as explicit state. *)

From Stdlib Require Import Reals Lra Lia ZArith List Bool Arith.
From Stdlib Require Import Sorting.Sorted Sorting.Permutation.
From Stdlib Require String.
Import ListNotations.

Local Open Scope R_scope.

(** ** Floats as reals *)

Module Float.

(** [a < b] on floats. *)
Definition ltb (a b : R) : bool := if Rlt_dec a b then true else false.

(** [a == b] on floats. *)
Definition eqb (a b : R) : bool := if Req_dec_T a b then true else false.

(** [int(r)]: truncation towards zero. *)
Definition int (r : R) : Z :=
  if Rle_dec 0 r then Int_part r else (- Int_part (- r))%Z.

(** [a % m] for a positive modulus: the floored remainder. *)
Definition mod_ (a m : R) : R := a - m * IZR (Int_part (a / m)).

(** [np.arctan2(y, x)]: the angle of the vector [(x, y)] in [(-PI, PI]]. *)
Definition arctan2 (y x : R) : R :=
  if Rlt_dec 0 x then atan (y / x)
  else if Rlt_dec x 0 then
    (if Rle_dec 0 y then atan (y / x) + PI else atan (y / x) - PI)
  else if Rlt_dec 0 y then PI / 2
  else if Rlt_dec y 0 then - (PI / 2)
  else 0.

(** [np.degrees(r)]. *)
Definition degrees (r : R) : R := r * (180 / PI).

End Float.

(** ** Python built-ins on lists *)

Module Py.

Section Sorting.
Context {A : Type}.

(** [prec a b] holds when [a] has to come strictly before [b]. *)
Variable prec : A -> A -> bool.

(** Insert [x] in front of an already sorted list whose elements all come
    after [x] in the input: [x] moves past the elements that strictly
    precede it and stops at the first one that does not, so equal keys
    keep their input order. *)
Fixpoint insert (x : A) (l : list A) : list A :=
  match l with
  | [] => [x]
  | y :: ys => if prec y x then y :: insert x ys else x :: y :: ys
  end.

(** The stable sort of [list.sort] and [sorted]. *)
Definition sort_by (l : list A) : list A := fold_right insert [] l.

(** [a] may stand before [b] in a sorted list. *)
Definition in_order (a b : A) : Prop := prec b a = false.
End Sorting.

(** [sorted(l, key=key, reverse=reverse)]. *)
Definition sorted {A : Type} (key : A -> R) (reverse : bool) (l : list A)
  : list A :=
  sort_by (fun a b => if reverse then Float.ltb (key b) (key a)
                      else Float.ltb (key a) (key b)) l.

(** [max(first :: rest, key=key)]: the first element with the largest key. *)
Definition max_by {A : Type} (key : A -> R) (first : A) (rest : list A) : A :=
  fold_left (fun cur item => if Float.ltb (key cur) (key item) then item else cur)
            rest first.

(** [itertools.combinations(l, 2)]. *)
Fixpoint combinations2 {A : Type} (l : list A) : list (A * A) :=
  match l with
  | [] => []
  | x :: xs => map (pair x) xs ++ combinations2 xs
  end.

(** [used[j] = True]. *)
Fixpoint set_true (j : nat) (used : list bool) : list bool :=
  match used, j with
  | [], _ => []
  | _ :: us, O => true :: us
  | u :: us, S j' => u :: set_true j' us
  end.

(** [sum(...)] over integers. *)
Definition sum (l : list Z) : Z := fold_left Z.add l 0%Z.

End Py.

(** ** Standard output *)

Inductive LogLine : Type :=
| LogProcessing (raw : nat)
| LogAfterFiltering (kept : nat)
| LogTopLengths (lengths : list Z)
| LogAfterMerging (unique_lines : nat)
| LogNotEnough
| LogCentroid (cx cy : Z)
| LogFound (unique_vertices : nat).

Definition Stdout : Type := list LogLine.

(** A computation that may print. *)
Definition IO (A : Type) : Type := Stdout -> A * Stdout.

Definition ret {A : Type} (a : A) : IO A := fun out => (a, out).

Definition bind {A B : Type} (m : IO A) (k : A -> IO B) : IO B :=
  fun out => let '(a, out') := m out in k a out'.

Definition print (l : LogLine) : IO unit := fun out => (tt, out ++ [l]).

Notation "m ;; k" := (bind m (fun _ => k))
  (at level 61, right associativity).

(** The value a computation returns when started on the output [out]. *)
Definition returned {A : Type} (m : IO A) (out : Stdout) : A := fst (m out).

(** What a computation leaves on the standard output. *)
Definition printed {A : Type} (m : IO A) (out : Stdout) : Stdout := snd (m out).

(** ** The detector *)

Module TriangleDetector.

(** A segment [(x1, y1, x2, y2)]. *)
Definition Line : Type := (Z * Z * Z * Z)%type.

(** A pixel [(x, y)]. *)
Definition Point : Type := (Z * Z)%type.

(** [img_shape[:2]], that is [(height, width)]. *)
Definition Shape : Type := (Z * Z)%type.

Definition get_line_length (line : Line) : R :=
  let '(x1, y1, x2, y2) := line in
  sqrt (IZR ((x2 - x1) ^ 2 + (y2 - y1) ^ 2)).

Definition get_line_angle (line : Line) : R :=
  let '(x1, y1, x2, y2) := line in
  let angle := Float.degrees (Float.arctan2 (IZR (y2 - y1)) (IZR (x2 - x1))) in
  Float.mod_ angle 180.

(** Line 63: the circular distance between two orientations. *)
Definition angle_diff (angle other_angle : R) : R :=
  Rmin (Rabs (angle - other_angle)) (180 - Rabs (angle - other_angle)).

(** A cluster under construction: [group = [line]] followed by what
    [group.append] added. *)
Definition Group : Type := (Line * list Line)%type.

Definition members (g : Group) : list Line := fst g :: snd g.

(** Lines 59-66: the scan of [sorted_lines[i+1:]], enumerated from [j]. *)
Fixpoint scan_others (angle angle_thresh : R) (others : list Line) (j : nat)
         (used : list bool) (appended : list Line) : list bool * list Line :=
  match others with
  | [] => (used, appended)
  | other :: rest =>
      if nth j used false then
        scan_others angle angle_thresh rest (S j) used appended
      else
        let other_angle := get_line_angle other in
        if Float.ltb (angle_diff angle other_angle) angle_thresh then
          scan_others angle angle_thresh rest (S j)
                      (Py.set_true j used) (appended ++ [other])
        else
          scan_others angle angle_thresh rest (S j) used appended
  end.

(** Lines 50-69: the loop over [sorted_lines[i:]], enumerated from [i];
    it yields the successive values of [group]. *)
Fixpoint scan_lines (angle_thresh : R) (lines : list Line) (i : nat)
         (used : list bool) : list Group :=
  match lines with
  | [] => []
  | line :: rest =>
      if nth i used false then scan_lines angle_thresh rest (S i) used
      else
        let angle := get_line_angle line in
        let '(used', appended) :=
          scan_others angle angle_thresh rest (S i) (Py.set_true i used) [] in
        (line, appended) :: scan_lines angle_thresh rest (S i) used'
  end.

(** The clusters that [merge_similar_lines] forms, in the order they are
    opened. *)
Definition clusters (lines : list Line) (angle_thresh : R) : list Group :=
  let sorted_lines := Py.sorted get_line_length true lines in
  scan_lines angle_thresh sorted_lines 0
             (repeat false (length sorted_lines)).

(** Line 69: [max(group, key=get_line_length)]. *)
Definition representative (g : Group) : Line :=
  Py.max_by get_line_length (fst g) (snd g).

Definition merge_similar_lines (lines : list Line) (angle_thresh : R)
  : list Line :=
  match lines with
  | [] => []
  | _ => map representative (clusters lines angle_thresh)
  end.

(** Line 78. *)
Definition denom (line1 line2 : Line) : Z :=
  let '(x1, y1, x2, y2) := line1 in
  let '(x3, y3, x4, y4) := line2 in
  ((x1 - x2) * (y3 - y4) - (y1 - y2) * (x3 - x4))%Z.

Definition find_line_intersection (line1 line2 : Line) : option Point :=
  let '(x1, y1, x2, y2) := line1 in
  let '(x3, y3, x4, y4) := line2 in
  let denom := denom line1 line2 in
  if Float.ltb (IZR (Z.abs denom)) 1e-10 then None
  else
    let t := IZR ((x1 - x3) * (y3 - y4) - (y1 - y3) * (x3 - x4)) / IZR denom in
    Some (Float.int (IZR x1 + t * IZR (x2 - x1)),
          Float.int (IZR y1 + t * IZR (y2 - y1))).

(** Line 90. *)
Definition border_margin (img_shape : Shape) : Z :=
  let '(height, width) := img_shape in
  Float.int (IZR (Z.min height width) * 0.05).

(** Lines 97-102. *)
Definition near_border (img_shape : Shape) (line : Line) : bool :=
  let '(height, width) := img_shape in
  let border_margin := border_margin img_shape in
  let '(x1, y1, x2, y2) := line in
  ((x1 <? border_margin) || (x1 >? width - border_margin) ||
   (y1 <? border_margin) || (y1 >? height - border_margin))%Z
  &&
  ((x2 <? border_margin) || (x2 >? width - border_margin) ||
   (y2 <? border_margin) || (y2 >? height - border_margin))%Z.

(** Step 1 (lines 93-104): the border filter. *)
Definition filter_border_lines (lines : list Line) (img_shape : Shape)
  : list Line :=
  filter (fun line => negb (near_border img_shape line)) lines.

(** Step 2 (lines 109-112), with the default threshold of
    [merge_similar_lines]. *)
Definition merged_lines (lines : list Line) (img_shape : Shape) : list Line :=
  let filtered_lines := filter_border_lines lines img_shape in
  let sorted_lines := Py.sorted get_line_length true filtered_lines in
  merge_similar_lines (firstn 50 sorted_lines) 15.

(** Step 3 (lines 120-125). *)
Definition all_points (merged : list Line) : list Point :=
  flat_map (fun line : Line =>
              let '(x1, y1, x2, y2) := line in [(x1, y1); (x2, y2)])
           (firstn 6 merged).

Definition centroid (merged : list Line) : R * R :=
  let all_points := all_points merged in
  (IZR (Py.sum (map fst all_points)) / INR (length all_points),
   IZR (Py.sum (map snd all_points)) / INR (length all_points)).

(** Line 139. *)
Definition dist_to_center (c : R * R) (p : Point) : R :=
  let '(centroid_x, centroid_y) := c in
  let '(x, y) := p in
  sqrt ((IZR x - centroid_x) ^ 2 + (IZR y - centroid_y) ^ 2).

(** Line 146. *)
Definition tolerance (img_shape : Shape) : Z :=
  let '(height, width) := img_shape in
  Float.int (IZR (Z.min height width) * 0.03).

(** Step 4 (lines 129-140): the list [vertices] before it is sorted. *)
Definition candidates (merged : list Line) (img_shape : Shape)
  : list (Point * R) :=
  let '(height, width) := img_shape in
  let margin := (border_margin img_shape * 2)%Z in
  let c := centroid merged in
  flat_map
    (fun pair : Line * Line =>
       let '(line1, line2) := pair in
       match find_line_intersection line1 line2 with
       | None => []
       | Some (x, y) =>
           if ((margin <=? x) && (x <=? width - margin) &&
               (margin <=? y) && (y <=? height - margin))%Z
           then [((x, y), dist_to_center c (x, y))]
           else []
       end)
    (Py.combinations2 (firstn 10 merged)).

(** Line 143: [vertices.sort(key=lambda v: v[1])]. *)
Definition ranked (merged : list Line) (img_shape : Shape)
  : list (Point * R) :=
  Py.sorted snd false (candidates merged img_shape).

(** Line 148. *)
Definition is_dup (tolerance : Z) (unique : list Point) (v : Point) : bool :=
  existsb (fun u : Point =>
             (Z.abs (fst v - fst u) <? tolerance)%Z &&
             (Z.abs (snd v - snd u) <? tolerance)%Z)
          unique.

(** Lines 145-150. *)
Definition dedup (tolerance : Z) (vertices : list (Point * R)) : list Point :=
  fold_left (fun unique (vd : Point * R) =>
               let '(v, dist) := vd in
               if is_dup tolerance unique v then unique else unique ++ [v])
            vertices [].

Definition find_triangle_vertices (lines : list Line) (img_shape : Shape)
  : IO (list Point) :=
  print (LogProcessing (length lines)) ;;
  let filtered_lines := filter_border_lines lines img_shape in
  print (LogAfterFiltering (length filtered_lines)) ;;
  let sorted_lines := Py.sorted get_line_length true filtered_lines in
  print (LogTopLengths
           (map (fun l => Float.int (get_line_length l)) (firstn 5 sorted_lines))) ;;
  let merged_lines := merge_similar_lines (firstn 50 sorted_lines) 15 in
  print (LogAfterMerging (length merged_lines)) ;;
  if (length merged_lines <? 3)%nat then
    print LogNotEnough ;;
    ret []
  else
    let '(centroid_x, centroid_y) := centroid merged_lines in
    print (LogCentroid (Float.int centroid_x) (Float.int centroid_y)) ;;
    let vertices := ranked merged_lines img_shape in
    let unique := dedup (tolerance img_shape) vertices in
    print (LogFound (length unique)) ;;
    ret (firstn 3 unique).

End TriangleDetector.

(** ** Properties the claims are stated with *)

Module Properties.
Import TriangleDetector.

(** Two points that the test of line 148 does not identify. *)
Definition apart (tol : Z) (u v : Point) : Prop :=
  ~ ((Z.abs (fst u - fst v) < tol)%Z /\ (Z.abs (snd u - snd v) < tol)%Z).

(** The square of [get_line_length], an integer. *)
Definition square_length (line : Line) : Z :=
  let '(x1, y1, x2, y2) := line in ((x2 - x1) ^ 2 + (y2 - y1) ^ 2)%Z.

(** Two different members of one cluster whose orientations are at least
    the threshold apart. *)
Definition merges_far_pair (lines : list Line) (angle_thresh : R) : Prop :=
  exists (g : Group) (a b : Line),
    In g (clusters lines angle_thresh)
    /\ In a (members g) /\ In b (members g) /\ a <> b
    /\ angle_thresh <= angle_diff (get_line_angle a) (get_line_angle b).

End Properties.

(** ** Ranking the candidates *)

Module Ranking.
Import TriangleDetector.




End Ranking.

(** ** Inputs of three scenarios *)

Module Scenarios.
Import TriangleDetector.

(** A right triangle whose corners touch the frame. *)
Definition edge_A : Line := (0, 0, 100, 0)%Z.
Definition edge_B : Line := (100, 0, 0, 100)%Z.
Definition edge_C : Line := (0, 100, 0, 0)%Z.
Definition edge_triangle : list Line := [edge_A; edge_B; edge_C].

Definition frame : Shape := (120, 120)%Z.

(** The same triangle moved 20 pixels into the frame. *)
Definition inner_A : Line := (20, 20, 100, 20)%Z.
Definition inner_B : Line := (100, 20, 20, 100)%Z.
Definition inner_C : Line := (20, 100, 20, 20)%Z.
Definition inner_triangle : list Line := [inner_A; inner_B; inner_C].

(** A vertical segment between two diagonals. *)
Definition fan_V : Line := (0, 0, 0, 200)%Z.
Definition fan_D1 : Line := (0, 0, 100, 100)%Z.
Definition fan_D2 : Line := (0, 0, 100, -100)%Z.
Definition fan : list Line := [fan_V; fan_D1; fan_D2].

End Scenarios.

(** ** Auxiliary notions for the loops and the geometry *)

Module Auxiliary.
Import TriangleDetector.

(** The lines of [lines], enumerated from [i], that [used] does not mark. *)
Fixpoint unused_from (lines : list Line) (i : nat) (used : list bool)
  : list Line :=
  match lines with
  | [] => []
  | line :: rest =>
      if nth i used false then unused_from rest (S i) used
      else line :: unused_from rest (S i) used
  end.

(** The real point [(X, Y)] lies on the infinite line through the endpoints
    of [line]. *)
Definition on_line (line : Line) (X Y : R) : Prop :=
  let '(x1, y1, x2, y2) := line in
  (X - IZR x1) * IZR (y2 - y1) = (Y - IZR y1) * IZR (x2 - x1).

(** The segment with its endpoints exchanged. *)
Definition reversed (line : Line) : Line :=
  let '(x1, y1, x2, y2) := line in (x2, y2, x1, y1).

(** The rectangle of line 138 in which a vertex has to lie. *)
Definition inside_margin (img_shape : Shape) (p : Point) : Prop :=
  let '(height, width) := img_shape in
  let margin := (border_margin img_shape * 2)%Z in
  (margin <= fst p <= width - margin)%Z /\ (margin <= snd p <= height - margin)%Z.

End Auxiliary.

(** ** The drawing of the triangle

    [draw_triangle] of [src/triangle_detector.py].  The pixels are not
    modelled: an image is known by the number of its axes, and the function
    by the sequence of what it prints and of the [cv2] calls it makes on its
    copy of the image. *)

Module Drawing.
Import TriangleDetector.

Inductive DrawEvent : Type :=
| CvtColorGray2BGR
| PrintOnlyFound (vertices : nat)
| CvLine (pt1 pt2 : Point)
| CvCircle (center : Point).

(** [vertices[i]]; the index is in range wherever the function uses it. *)
Definition item (vertices : list Point) (i : nat) : Point :=
  nth i vertices (0, 0)%Z.

Definition draw_triangle (img_ndim : nat) (vertices : list Point)
  : list DrawEvent :=
  (if (img_ndim =? 2)%nat then [CvtColorGray2BGR] else [])
  ++
  if (length vertices <? 3)%nat then
    PrintOnlyFound (length vertices) :: map CvCircle vertices
  else
    flat_map (fun i =>
                let pt1 := item vertices i in
                let pt2 := item vertices ((i + 1) mod 3) in
                [CvLine pt1 pt2; CvCircle pt1])
             (seq 0 3).

(** The points that an event draws at. *)
Definition drawn_points (e : DrawEvent) : list Point :=
  match e with
  | CvLine pt1 pt2 => [pt1; pt2]
  | CvCircle center => [center]
  | _ => []
  end.

Definition is_line (e : DrawEvent) : bool :=
  match e with CvLine _ _ => true | _ => false end.

End Drawing.

(** ** The frequency masks

    [src/filters.py].  An array is the list of its rows; the complex
    spectrum keeps the real and the imaginary channel of each coefficient as
    a pair.  [apply_filter] is modelled for operands of equal height and
    width, the way [run_basic_pipeline] calls it. *)

Module Filters.
Import String.

(** [a <= b] on floats. *)
Definition leb (a b : R) : bool := if Rle_dec a b then true else false.

(** A single-channel array. *)
Definition Mask : Type := list (list R).

(** A two-channel array. *)
Definition Spectrum : Type := list (list (R * R)).

(** The indices [0 .. n-1] of [np.ogrid[:n]]. *)
Definition arange (n : Z) : list Z := map Z.of_nat (seq 0 (Z.to_nat n)).

(** The array whose entry [y][x] is [f y x]. *)
Definition tabulate {A : Type} (rows cols : Z) (f : Z -> Z -> A) : list (list A) :=
  map (fun y => map (fun x => f y x) (arange cols)) (arange rows).

(** Element-wise combination of two arrays of the same shape. *)
Definition map2 {A B C : Type} (f : A -> B -> C) (a : list A) (b : list B)
  : list C :=
  map (fun ab => f (fst ab) (snd ab)) (combine a b).

(** [img[y][x]]. *)
Definition pixel {A : Type} (img : list (list A)) (y x : nat) (default : A) : A :=
  nth x (nth y img []) default.

(** The array has [rows] rows of [cols] entries. *)
Definition has_shape {A : Type} (rows cols : nat) (img : list (list A)) : Prop :=
  List.length img = rows /\ Forall (fun row => List.length row = cols) img.

(** Line 28, at the pixel [(x, y)]. *)
Definition distance (shape : Z * Z) (y x : Z) : R :=
  let '(rows, cols) := shape in
  let center_row := (rows / 2)%Z in
  let center_col := (cols / 2)%Z in
  sqrt (IZR ((x - center_col) ^ 2 + (y - center_row) ^ 2)).

Definition create_low_pass_mask (shape : Z * Z) (radius : Z) : Mask :=
  let '(rows, cols) := shape in
  tabulate rows cols
           (fun y x => if leb (distance shape y x) (IZR radius) then 1 else 0).

Definition create_high_pass_mask (shape : Z * Z) (radius : Z) : Mask :=
  map (map (fun m => 1 - m)) (create_low_pass_mask shape radius).

Definition create_band_pass_mask (shape : Z * Z) (radius_low radius_high : Z)
  : Mask :=
  let low_mask := create_low_pass_mask shape radius_high in
  let high_mask := create_high_pass_mask shape radius_low in
  map2 (map2 Rmult) low_mask high_mask.

Definition apply_filter (fft_shifted : Spectrum) (mask : Mask) : Spectrum :=
  let mask_2ch := map (map (fun m => (m, m))) mask in
  map2 (map2 (fun (c m2 : R * R) => (fst c * fst m2, snd c * snd m2)))
       fft_shifted mask_2ch.

(** A coefficient with both channels multiplied by a mask entry. *)
Definition scale (c : R * R) (m : R) : R * R := (fst c * m, snd c * m).

(** A mask of zeros and ones. *)
Definition binary (mask : Mask) : Prop :=
  Forall (Forall (fun m => m = 0 \/ m = 1)) mask.

(** A dictionary with string keys, as the list of its items in insertion
    order. *)
Definition Dict : Type := list (String.string * Z).

Definition get_default_radii (shape : Z * Z) : Dict :=
  let min_dim := Z.min (fst shape) (snd shape) in
  [ ("low_pass"%string, min_dim / 10); ("high_pass"%string, min_dim / 10);
    ("band_low"%string, min_dim / 20); ("band_high"%string, min_dim / 5) ]%Z.

(** [radii[key]]; [None] stands for [KeyError]. *)
Definition getitem (radii : Dict) (key : String.string) : option Z :=
  option_map snd (find (fun item => String.eqb (fst item) key) radii).

End Filters.

(** ** Threshold selection

    [get_threshold_from_user] and [apply_binary_threshold] of
    [src/histogram_utils.py].  The standard input is the list of the lines
    the user will type, each given by what [int(...)] makes of it.  A
    greyscale image is the list of its rows of 8-bit pixels.
    [cv2.threshold(img, t, 255, cv2.THRESH_BINARY_INV)] is taken from the
    OpenCV documentation: 0 where the pixel exceeds [t], 255 elsewhere. *)

Module Histogram.

(** A line of input under [int(...)]: its value, or [ValueError]. *)
Inductive Typed : Type :=
| TypedInt (value : Z)
| TypedOther.

(** What the function writes: the five lines of help printed first, the
    prompt of [input], and the two error messages. *)
Inductive Message : Type :=
| PrintHelp
| Prompt
| PrintMustBeInRange
| PrintNotAnInteger.

(** How a call ends: with a value, or with the [EOFError] of [input] at the
    end of the input. *)
Inductive Outcome (A : Type) : Type :=
| Returned (a : A)
| EOFError.

Arguments Returned {A} a.
Arguments EOFError {A}.

(** Lines 38-45: the loop; it yields the outcome, the input left unread and
    what was printed. *)
Fixpoint threshold_loop (stdin : list Typed)
  : Outcome Z * list Typed * list Message :=
  match stdin with
  | [] => (EOFError, [], [Prompt])
  | TypedInt threshold :: rest =>
      if ((0 <=? threshold) && (threshold <=? 255))%Z then
        (Returned threshold, rest, [Prompt])
      else
        let '(outcome, unread, printed) := threshold_loop rest in
        (outcome, unread, Prompt :: PrintMustBeInRange :: printed)
  | TypedOther :: rest =>
      let '(outcome, unread, printed) := threshold_loop rest in
      (outcome, unread, Prompt :: PrintNotAnInteger :: printed)
  end.

Definition get_threshold_from_user (stdin : list Typed)
  : Outcome Z * list Typed * list Message :=
  let '(outcome, unread, printed) := threshold_loop stdin in
  (outcome, unread, PrintHelp :: printed).

(** A line that the loop accepts. *)
Definition acceptable (line : Typed) : bool :=
  match line with
  | TypedInt threshold => ((0 <=? threshold) && (threshold <=? 255))%Z
  | TypedOther => false
  end.

(** The error message that answers a line the loop does not accept. *)
Definition answer (line : Typed) : Message :=
  match line with
  | TypedInt _ => PrintMustBeInRange
  | TypedOther => PrintNotAnInteger
  end.

(** What the loop prints for the lines it does not accept: for each one
    the prompt it was typed at and the error message that answers it. *)
Definition rejections (rejected : list Typed) : list Message :=
  flat_map (fun line => [Prompt; answer line]) rejected.

(** [cv2.THRESH_BINARY_INV] on one pixel. *)
Definition threshold_binary_inv (thresh maxval src : Z) : Z :=
  if (src >? thresh)%Z then 0%Z else maxval.

(** [np.sum(binary == value)]. *)
Definition count_equal (value : Z) (img : list (list Z)) : Z :=
  Z.of_nat (length (filter (Z.eqb value) (concat img))).

(** [binary.size]. *)
Definition size (img : list (list Z)) : Z := Z.of_nat (length (concat img)).

(** The binary image, with the counts of black and of white pixels and the
    total that the function prints. *)
Definition apply_binary_threshold (img : list (list Z)) (threshold : Z)
  : list (list Z) * (Z * Z * Z) :=
  let binary := map (map (threshold_binary_inv threshold 255)) img in
  let black_pixels := count_equal 255 binary in
  let white_pixels := count_equal 0 binary in
  let total_pixels := size binary in
  (binary, (black_pixels, white_pixels, total_pixels)).

End Histogram.

(** ** Facts about the float operations *)

Module FloatFacts.
Import Float.

Lemma ltb_true_iff (a b : R) : ltb a b = true <-> a < b.
Proof.
  unfold ltb. destruct (Rlt_dec a b); split; intros; try discriminate; tauto.
Qed.

Lemma ltb_false_iff (a b : R) : ltb a b = false <-> b <= a.
Proof.
  unfold ltb. destruct (Rlt_dec a b); split; intros; try discriminate;
    try reflexivity; lra.
Qed.

Lemma ltb_IZR (a b : Z) : ltb (IZR a) (IZR b) = (a <? b)%Z.
Proof.
  destruct (Z.ltb_spec a b) as [H | H].
  - apply ltb_true_iff. now apply IZR_lt.
  - apply ltb_false_iff. now apply IZR_le.
Qed.

Lemma ltb_sqrt (a b : R) :
  0 <= a -> 0 <= b -> ltb (sqrt a) (sqrt b) = ltb a b.
Proof.
  intros Ha Hb. destruct (Rlt_dec a b) as [H | H].
  - rewrite (proj2 (ltb_true_iff a b) H). apply ltb_true_iff.
    apply sqrt_lt_1; assumption.
  - assert (b <= a) by lra.
    rewrite (proj2 (ltb_false_iff a b)) by assumption.
    apply ltb_false_iff. apply sqrt_le_1; assumption.
Qed.


(** [Int_part] is the floor. *)
Lemma Int_part_floor (r : R) (z : Z) :
  IZR z <= r < IZR z + 1 -> Int_part r = z.
Proof.
  intros H. symmetry. apply Int_part_spec. lra.
Qed.

Lemma int_floor (r : R) (z : Z) :
  0 <= r -> IZR z <= r < IZR z + 1 -> int r = z.
Proof.
  intros H0 H. unfold int. destruct (Rle_dec 0 r); [ | tauto ].
  now apply Int_part_floor.
Qed.

Lemma int_IZR (z : Z) : int (IZR z) = z.
Proof.
  unfold int. destruct (Rle_dec 0 (IZR z)).
  - apply Int_part_floor. lra.
  - rewrite <- opp_IZR. rewrite (Int_part_floor (IZR (- z)) (- z)) by lra. lia.
Qed.

(** [int(n * p / q)] is the integer quotient for non-negative [n]. *)
Lemma int_scaled (n p q : Z) (r : R) :
  (0 <= n)%Z -> (0 <= p)%Z -> (0 < q)%Z ->
  r * IZR q = IZR (n * p) ->
  int r = (n * p / q)%Z.
Proof.
  intros Hn Hp Hq Hr.
  assert (Hq' : 0 < IZR q) by now apply IZR_lt.
  assert (Hnp : (0 <= n * p)%Z) by lia.
  pose proof (Z.div_mod (n * p) q ltac:(lia)) as Hdm.
  pose proof (Z.mod_pos_bound (n * p) q Hq) as Hmod.
  set (d := (n * p / q)%Z) in *. set (m := ((n * p) mod q)%Z) in *.
  assert (Hd : (0 <= d)%Z) by (apply Z.div_pos; lia).
  assert (E : r * IZR q = IZR q * IZR d + IZR m).
  { rewrite Hr, Hdm, plus_IZR, mult_IZR. reflexivity. }
  assert (Hm0 : 0 <= IZR m) by (apply IZR_le; lia).
  assert (Hm1 : IZR m < IZR q) by (apply IZR_lt; lia).
  assert (Hd0 : 0 <= IZR d) by now apply IZR_le.
  apply int_floor; [ nra | split; nra ].
Qed.

Lemma int_opp (r : R) : int (- r) = (- int r)%Z.
Proof.
  unfold int. destruct (Rle_dec 0 (- r)), (Rle_dec 0 r).
  - assert (r = 0) by lra. subst r. rewrite Ropp_0.
    rewrite (Int_part_floor 0 0) by lra. reflexivity.
  - lia.
  - rewrite Ropp_involutive. reflexivity.
  - lra.
Qed.

(** Truncating a quotient of integers is the truncating integer division. *)
Lemma int_div (p q : Z) : q <> 0%Z -> int (IZR p / IZR q) = Z.quot p q.
Proof.
  assert (Pos : forall a b, (0 <= a)%Z -> (0 < b)%Z ->
                            int (IZR a / IZR b) = Z.quot a b).
  { intros a b Ha Hb. rewrite Z.quot_div_nonneg by lia.
    replace (a / b)%Z with (a * 1 / b)%Z by (f_equal; lia).
    apply int_scaled; try lia.
    assert (IZR b <> 0) by (apply not_0_IZR; lia).
    rewrite Z.mul_1_r. field. assumption. }
  intros Hq.
  assert (Hq' : IZR q <> 0) by now apply not_0_IZR.
  destruct (Z_lt_le_dec p 0) as [Hp | Hp], (Z_lt_le_dec q 0) as [Hq0 | Hq0].
  - replace (IZR p / IZR q) with (IZR (- p) / IZR (- q))
      by (rewrite !opp_IZR; field; assumption).
    rewrite Pos by lia. rewrite Z.quot_opp_opp by lia. reflexivity.
  - replace (IZR p / IZR q) with (- (IZR (- p) / IZR q))
      by (rewrite !opp_IZR; field; assumption).
    rewrite int_opp, Pos by lia. rewrite Z.quot_opp_l by lia. lia.
  - replace (IZR p / IZR q) with (- (IZR p / IZR (- q)))
      by (rewrite !opp_IZR; field; assumption).
    rewrite int_opp, Pos by lia. rewrite Z.quot_opp_r by lia. lia.
  - apply Pos; lia.
Qed.

Lemma mod_floor (a m : R) (k : Z) :
  0 < m -> IZR k * m <= a < (IZR k + 1) * m -> mod_ a m = a - m * IZR k.
Proof.
  intros Hm [H1 H2]. unfold mod_. rewrite (Int_part_floor (a / m) k); [ reflexivity | ].
  split.
  - apply Rmult_le_reg_r with m; [ exact Hm | ].
    unfold Rdiv. rewrite Rmult_assoc, Rinv_l by lra. lra.
  - apply Rmult_lt_reg_r with m; [ exact Hm | ].
    unfold Rdiv. rewrite Rmult_assoc, Rinv_l by lra. lra.
Qed.

Lemma degrees_PI (c : R) : degrees (c * PI) = c * 180.
Proof. unfold degrees. field. apply PI_neq0. Qed.

Lemma atan_opp_1 : atan (-1) = - (PI / 4).
Proof.
  replace (-1) with (Ropp 1) by lra. rewrite atan_opp, atan_1. reflexivity.
Qed.

End FloatFacts.

(** ** Facts about the list built-ins *)

Module PyFacts.
Import Py.

Section Insertion.
Context {A : Type}.
Variable prec : A -> A -> bool.

Lemma insert_perm (x : A) (l : list A) :
  Permutation (insert prec x l) (x :: l).
Proof.
  induction l as [ | y ys IH]; simpl.
  - apply Permutation_refl.
  - destruct (prec y x).
    + eapply perm_trans; [ apply perm_skip, IH | apply perm_swap ].
    + apply Permutation_refl.
Qed.

Lemma sort_by_perm (l : list A) : Permutation (sort_by prec l) l.
Proof.
  induction l as [ | x xs IH]; simpl.
  - apply perm_nil.
  - eapply perm_trans; [ apply insert_perm | apply perm_skip, IH ].
Qed.

Lemma sort_by_length (l : list A) : length (sort_by prec l) = length l.
Proof. apply Permutation_length, sort_by_perm. Qed.

Lemma sort_by_In (l : list A) (x : A) : In x (sort_by prec l) <-> In x l.
Proof.
  split; apply Permutation_in;
    [ apply sort_by_perm | apply Permutation_sym, sort_by_perm ].
Qed.

(** Stability.  A class [p] of elements that nothing in the class has to
    follow strictly keeps, after sorting, the order it has in the input. *)
Section Stable.
Variable p : A -> bool.
Hypothesis p_closed :
  forall x y, p x = true -> prec y x = true -> p y = false.


End Stable.

(** Sortedness, when [prec] is a strict weak order. *)
Section Ordered.
Hypothesis prec_asym : forall a b, prec a b = true -> prec b a = false.
Hypothesis prec_negtrans :
  forall a b c, prec a c = true -> prec a b = true \/ prec b c = true.

Lemma insert_sorted (x : A) (l : list A) :
  StronglySorted (in_order prec) l -> StronglySorted (in_order prec) (insert prec x l).
Proof.
  induction 1 as [ | y ys Hs IH Hy]; simpl.
  - repeat constructor.
  - destruct (prec y x) eqn:Hyx.
    + constructor; [ exact IH | ].
      apply Forall_forall. intros z Hz.
      apply (Permutation_in _ (insert_perm x ys)) in Hz.
      destruct Hz as [<- | Hz].
      * now apply prec_asym.
      * rewrite Forall_forall in Hy. now apply Hy.
    + constructor; [ now constructor | ].
      constructor; [ exact Hyx | ].
      apply Forall_forall. intros z Hz. unfold in_order.
      destruct (prec z x) eqn:Hzx; [ | reflexivity ].
      rewrite Forall_forall in Hy. specialize (Hy z Hz). unfold in_order in Hy.
      destruct (prec_negtrans z y x Hzx) as [H' | H']; congruence.
Qed.

Lemma sort_by_sorted (l : list A) :
  StronglySorted (in_order prec) (sort_by prec l).
Proof.
  induction l as [ | x xs IH]; simpl.
  - constructor.
  - now apply insert_sorted.
Qed.
End Ordered.
End Insertion.

Lemma StronglySorted_impl {A : Type} (R1 R2 : A -> A -> Prop) (l : list A) :
  (forall a b, R1 a b -> R2 a b) -> StronglySorted R1 l -> StronglySorted R2 l.
Proof.
  intros Himp. induction 1 as [ | a l' _ IH Hall]; constructor.
  - exact IH.
  - eapply Forall_impl; [ | exact Hall ]. intros b. apply Himp.
Qed.

(** [sorted(..., reverse=True)] puts no shorter key in front of a longer
    one. *)
Lemma sorted_reverse_sorted {A : Type} (key : A -> R) (l : list A) :
  StronglySorted (fun a b => key b <= key a) (sorted key true l).
Proof.
  unfold sorted.
  apply StronglySorted_impl with
    (R1 := in_order (fun a b => Float.ltb (key b) (key a))).
  - intros a b Hb. unfold in_order in Hb.
    now apply FloatFacts.ltb_false_iff in Hb.
  - apply sort_by_sorted.
    + intros a b H. apply FloatFacts.ltb_true_iff in H.
      apply FloatFacts.ltb_false_iff. lra.
    + intros a b c H. apply FloatFacts.ltb_true_iff in H.
      destruct (Rlt_dec (key b) (key a)) as [Hba | Hba].
      * left. now apply FloatFacts.ltb_true_iff.
      * right. apply FloatFacts.ltb_true_iff. lra.
Qed.

(** [sort(key=...)] puts no larger key in front of a smaller one. *)
Lemma sorted_forward_sorted {A : Type} (key : A -> R) (l : list A) :
  StronglySorted (fun a b => key a <= key b) (sorted key false l).
Proof.
  unfold sorted.
  apply StronglySorted_impl with
    (R1 := in_order (fun a b => Float.ltb (key a) (key b))).
  - intros a b Hb. unfold in_order in Hb.
    now apply FloatFacts.ltb_false_iff in Hb.
  - apply sort_by_sorted.
    + intros a b H. apply FloatFacts.ltb_true_iff in H.
      apply FloatFacts.ltb_false_iff. lra.
    + intros a b c H. apply FloatFacts.ltb_true_iff in H.
      destruct (Rlt_dec (key a) (key b)) as [Hab | Hab].
      * left. now apply FloatFacts.ltb_true_iff.
      * right. apply FloatFacts.ltb_true_iff. lra.
Qed.

Lemma sorted_length {A : Type} (key : A -> R) (reverse : bool) (l : list A) :
  length (sorted key reverse l) = length l.
Proof. apply sort_by_length. Qed.

Lemma sorted_In {A : Type} (key : A -> R) (reverse : bool) (l : list A) (x : A) :
  In x (sorted key reverse l) <-> In x l.
Proof. apply sort_by_In. Qed.


(** [max] keeps the first element when nothing after it has a larger key. *)
Lemma max_by_first {A : Type} (key : A -> R) (first : A) (rest : list A) :
  Forall (fun m => key m <= key first) rest -> max_by key first rest = first.
Proof.
  unfold max_by. induction 1 as [ | m ms Hm _ IH]; simpl.
  - reflexivity.
  - now rewrite (proj2 (FloatFacts.ltb_false_iff (key first) (key m)) Hm).
Qed.

Lemma set_true_length (j : nat) (used : list bool) :
  length (set_true j used) = length used.
Proof.
  revert j. induction used as [ | u us IH]; intros [ | j]; simpl; auto.
Qed.

Lemma nth_set_true (j k : nat) (used : list bool) :
  nth k (set_true j used) false
  = ((k =? j)%nat && (j <? length used)%nat) || nth k used false.
Proof.
  revert j k. induction used as [ | u us IH]; intros j k.
  - destruct j, k; simpl; rewrite ?andb_false_r; reflexivity.
  - destruct j as [ | j], k as [ | k]; simpl; try reflexivity.
    rewrite IH. reflexivity.
Qed.

End PyFacts.

(** ** Facts about the detector *)

Module DetectorFacts.
Import Py PyFacts TriangleDetector Properties.

(** *** The pipeline without its output *)

Lemma find_triangle_vertices_returned (lines : list Line) (img_shape : Shape)
      (out : Stdout) :
  returned (find_triangle_vertices lines img_shape) out
  = if (length (merged_lines lines img_shape) <? 3)%nat then []
    else firstn 3 (dedup (tolerance img_shape)
                         (ranked (merged_lines lines img_shape) img_shape)).
Proof.
  unfold returned, find_triangle_vertices, merged_lines, bind, print, ret.
  cbv beta iota.
  destruct (length _ <? 3)%nat; [ reflexivity | ].
  destruct (centroid _) as [centroid_x centroid_y]. reflexivity.
Qed.

(** *** Margins *)

Lemma border_margin_floor (height width : Z) :
  (0 <= Z.min height width)%Z ->
  border_margin (height, width) = (Z.min height width * 5 / 100)%Z.
Proof.
  intros H. unfold border_margin.
  apply FloatFacts.int_scaled; try lia.
  rewrite mult_IZR. lra.
Qed.

Lemma tolerance_floor (height width : Z) :
  (0 <= Z.min height width)%Z ->
  tolerance (height, width) = (Z.min height width * 3 / 100)%Z.
Proof.
  intros H. unfold tolerance.
  apply FloatFacts.int_scaled; try lia.
  rewrite mult_IZR. lra.
Qed.

(** *** Deduplication *)

Lemma apart_sym (tol : Z) (u v : Point) : apart tol u v -> apart tol v u.
Proof. unfold apart. intros H [H1 H2]. apply H. split; lia. Qed.

Lemma is_dup_false (tol : Z) (unique : list Point) (v : Point) :
  is_dup tol unique v = false -> Forall (fun u => apart tol u v) unique.
Proof.
  unfold is_dup. intros H. apply Forall_forall. intros u Hu [H1 H2].
  assert (E : existsb
                (fun u0 : Point =>
                   (Z.abs (fst v - fst u0) <? tol)%Z &&
                   (Z.abs (snd v - snd u0) <? tol)%Z) unique = true).
  { apply existsb_exists. exists u. split; [ exact Hu | ].
    apply andb_true_intro. split; apply Z.ltb_lt; lia. }
  congruence.
Qed.

Lemma ForallOrdPairs_snoc {A : Type} (R : A -> A -> Prop) (l : list A) (v : A) :
  ForallOrdPairs R l -> Forall (fun u => R u v) l -> ForallOrdPairs R (l ++ [v]).
Proof.
  induction 1 as [ | a l' Ha Hl IH]; intros Hv; simpl.
  - repeat constructor.
  - inversion Hv; subst. constructor.
    + apply Forall_app. split; [ exact Ha | repeat constructor; assumption ].
    + now apply IH.
Qed.

Lemma firstn_In {A : Type} (n : nat) (l : list A) (x : A) :
  In x (firstn n l) -> In x l.
Proof.
  revert l. induction n as [ | n IH]; intros [ | a l]; simpl; try tauto.
  intros [H | H]; [ now left | right; now apply IH ].
Qed.

Lemma ForallOrdPairs_firstn {A : Type} (R : A -> A -> Prop) (n : nat) (l : list A) :
  ForallOrdPairs R l -> ForallOrdPairs R (firstn n l).
Proof.
  intros H. revert n. induction H as [ | a l' Ha Hl IH]; intros [ | n]; simpl;
    try constructor.
  - apply Forall_forall. intros x Hx. rewrite Forall_forall in Ha.
    apply Ha. eapply firstn_In; eauto.
  - apply IH.
Qed.

Lemma ForallOrdPairs_nth {A : Type} (R : A -> A -> Prop) (l : list A) :
  ForallOrdPairs R l ->
  forall i j u v, (i < j)%nat ->
    nth_error l i = Some u -> nth_error l j = Some v -> R u v.
Proof.
  induction 1 as [ | a l' Ha Hl IH]; intros i j u v Hij Hi Hj.
  - destruct i; discriminate.
  - destruct j as [ | j]; [ lia | ]. simpl in Hj.
    destruct i as [ | i]; simpl in Hi.
    + injection Hi as <-. rewrite Forall_forall in Ha.
      apply Ha. eapply nth_error_In; eauto.
    + apply (IH i j); auto; lia.
Qed.

Lemma dedup_from (tol : Z) (vertices : list (Point * R)) (unique : list Point) :
  ForallOrdPairs (apart tol) unique ->
  ForallOrdPairs (apart tol)
    (fold_left (fun unique (vd : Point * R) =>
                  let '(v, dist) := vd in
                  if is_dup tol unique v then unique else unique ++ [v])
               vertices unique).
Proof.
  revert unique. induction vertices as [ | [v dist] vs IH]; intros unique H; simpl.
  - exact H.
  - apply IH. destruct (is_dup tol unique v) eqn:E; [ exact H | ].
    apply ForallOrdPairs_snoc; [ exact H | now apply is_dup_false ].
Qed.

Lemma dedup_apart (tol : Z) (vertices : list (Point * R)) :
  ForallOrdPairs (apart tol) (dedup tol vertices).
Proof. apply dedup_from. constructor. Qed.

Lemma returned_apart (lines : list Line) (img_shape : Shape) (out : Stdout) :
  ForallOrdPairs (apart (tolerance img_shape))
                 (returned (find_triangle_vertices lines img_shape) out).
Proof.
  rewrite find_triangle_vertices_returned.
  destruct (_ <? 3)%nat; [ constructor | ].
  apply ForallOrdPairs_firstn, dedup_apart.
Qed.

End DetectorFacts.

(** ** Facts about the clustering loop *)

Module MergeFacts.
Import Py PyFacts TriangleDetector.

Lemma angle_diff_sym (a b : R) : angle_diff a b = angle_diff b a.
Proof. unfold angle_diff. now rewrite (Rabs_minus_sym a b). Qed.

(** What one run of the inner loop does to [used] and to [group]. *)
Lemma scan_others_spec (angle th : R) (others : list Line) :
  forall (j : nat) (used : list bool) (appended : list Line)
         (used' : list bool) (appended' : list Line),
    scan_others angle th others j used appended = (used', appended') ->
    (j + length others <= length used)%nat ->
    length used' = length used
    /\ (forall k, nth k used false = true -> nth k used' false = true)
    /\ (exists added,
           appended' = appended ++ added
           /\ Forall (fun o => In o others
                               /\ angle_diff angle (get_line_angle o) < th) added)
    /\ (forall m o, nth_error others m = Some o ->
                    nth (j + m) used' false = false ->
                    th <= angle_diff angle (get_line_angle o)).
Proof.
  induction others as [ | other rest IH]; intros j used appended used' appended' E Hlen.
  - simpl in E. injection E as <- <-. repeat split; auto.
    + exists []. split; [ now rewrite app_nil_r | constructor ].
    + intros [ | m] o H; discriminate.
  - simpl in E, Hlen.
    destruct (nth j used false) eqn:Hj.
    + apply IH in E; [ | lia ].
      destruct E as (L & Mono & (added & -> & Hadded) & Rest).
      repeat split; auto.
      * exists added. split; [ reflexivity | ].
        eapply Forall_impl; [ | exact Hadded ]. intros o [Ho Hd]. split; [ now right | exact Hd ].
      * intros [ | m] o Ho Hu.
        -- rewrite Nat.add_0_r in Hu. apply Mono in Hj. congruence.
        -- simpl in Ho. apply (Rest m o Ho). rewrite Nat.add_succ_r in Hu. exact Hu.
    + destruct (Float.ltb (angle_diff angle (get_line_angle other)) th) eqn:Hlt.
      * apply IH in E; [ | rewrite set_true_length; lia ].
        destruct E as (L & Mono & (added & -> & Hadded) & Rest).
        rewrite set_true_length in L.
        assert (Hset : forall k, nth k (set_true j used) false = true ->
                                 nth k used' false = true) by exact Mono.
        repeat split; auto.
        -- intros k Hk. apply Hset. rewrite nth_set_true, Hk. apply orb_true_r.
        -- exists (other :: added). split; [ now rewrite <- app_assoc | ].
           constructor.
           ++ split; [ now left | now apply FloatFacts.ltb_true_iff ].
           ++ eapply Forall_impl; [ | exact Hadded ].
              intros o [Ho Hd]. split; [ now right | exact Hd ].
        -- intros [ | m] o Ho Hu.
           ++ rewrite Nat.add_0_r in Hu.
              assert (nth j used' false = true); [ | congruence ].
              apply Hset. rewrite nth_set_true, Nat.eqb_refl.
              replace (j <? length used)%nat with true; [ reflexivity | ].
              symmetry. apply Nat.ltb_lt. lia.
           ++ simpl in Ho. apply (Rest m o Ho). rewrite Nat.add_succ_r in Hu. exact Hu.
      * apply IH in E; [ | lia ].
        destruct E as (L & Mono & (added & -> & Hadded) & Rest).
        repeat split; auto.
        -- exists added. split; [ reflexivity | ].
           eapply Forall_impl; [ | exact Hadded ].
           intros o [Ho Hd]. split; [ now right | exact Hd ].
        -- intros [ | m] o Ho Hu.
           ++ simpl in Ho. injection Ho as <-.
              now apply FloatFacts.ltb_false_iff.
           ++ simpl in Ho. apply (Rest m o Ho). rewrite Nat.add_succ_r in Hu. exact Hu.
Qed.

(** The loop opens at most one cluster per line. *)
Lemma scan_lines_length (th : R) (lines : list Line) :
  forall i used, (length (scan_lines th lines i used) <= length lines)%nat.
Proof.
  induction lines as [ | line rest IH]; intros i used; simpl.
  - lia.
  - destruct (nth i used false).
    + specialize (IH (S i) used). lia.
    + destruct (scan_others _ _ _ _ _ _) as [used' appended]. simpl.
      specialize (IH (S i) used'). lia.
Qed.

(** Every line appended to a cluster is closer than the threshold to the
    line that opened it. *)
Lemma scan_lines_members (th : R) (lines : list Line) :
  forall i used, (i + length lines <= length used)%nat ->
    Forall (fun g : Group =>
              Forall (fun o => angle_diff (get_line_angle (fst g))
                                          (get_line_angle o) < th) (snd g))
           (scan_lines th lines i used).
Proof.
  induction lines as [ | line rest IH]; intros i used Hlen; simpl.
  - constructor.
  - simpl in Hlen. destruct (nth i used false).
    + apply IH. lia.
    + destruct (scan_others _ _ _ _ _ _) as [used' appended] eqn:E.
      apply scan_others_spec in E; [ | rewrite set_true_length; lia ].
      destruct E as (L & _ & (added & -> & Hadded) & _).
      rewrite set_true_length in L.
      constructor.
      * simpl. eapply Forall_impl; [ | exact Hadded ]. now intros o [_ Hd].
      * apply IH. lia.
Qed.

(** In a list sorted by decreasing length every cluster is represented by
    the line that opened it. *)
Lemma scan_lines_representative (th : R) (lines : list Line) :
  StronglySorted (fun a b => get_line_length b <= get_line_length a) lines ->
  forall i used, (i + length lines <= length used)%nat ->
    map representative (scan_lines th lines i used)
    = map fst (scan_lines th lines i used).
Proof.
  induction 1 as [ | line rest Hs IH Hall]; intros i used Hlen; simpl.
  - reflexivity.
  - simpl in Hlen. destruct (nth i used false).
    + apply IH. lia.
    + destruct (scan_others _ _ _ _ _ _) as [used' appended] eqn:E.
      apply scan_others_spec in E; [ | rewrite set_true_length; lia ].
      destruct E as (L & _ & (added & -> & Hadded) & _).
      rewrite set_true_length in L. simpl. f_equal.
      * unfold representative. simpl. apply max_by_first.
        apply Forall_forall. intros o Ho.
        rewrite Forall_forall in Hadded, Hall.
        apply Hall. now apply Hadded.
      * apply IH. lia.
Qed.

(** The lines that open clusters are pairwise at least the threshold apart
    (and at least the threshold away from the angles [A] of the clusters
    opened before). *)
Lemma scan_lines_seeds (th : R) (lines : list Line) :
  forall (i : nat) (used : list bool) (A : list R),
    (i + length lines <= length used)%nat ->
    (forall m o, nth_error lines m = Some o ->
                 nth (i + m) used false = false ->
                 Forall (fun a => th <= angle_diff a (get_line_angle o)) A) ->
    Forall (fun s => Forall (fun a => th <= angle_diff a (get_line_angle s)) A)
           (map fst (scan_lines th lines i used))
    /\ ForallOrdPairs
         (fun s t => th <= angle_diff (get_line_angle s) (get_line_angle t))
         (map fst (scan_lines th lines i used)).
Proof.
  induction lines as [ | line rest IH]; intros i used A Hlen Hinv; simpl.
  - split; constructor.
  - simpl in Hlen. destruct (nth i used false) eqn:Hi.
    + apply IH; [ lia | ].
      intros m o Ho Hu. apply (Hinv (S m) o Ho). now rewrite Nat.add_succ_r.
    + destruct (scan_others _ _ _ _ _ _) as [used' appended] eqn:E.
      apply scan_others_spec in E; [ | rewrite set_true_length; lia ].
      destruct E as (L & Mono & _ & Rest).
      rewrite set_true_length in L.
      assert (Hline : Forall (fun a => th <= angle_diff a (get_line_angle line)) A).
      { apply (Hinv 0%nat line eq_refl). now rewrite Nat.add_0_r. }
      destruct (IH (S i) used' (get_line_angle line :: A)) as [Hall Hpairs].
      * lia.
      * intros m o Ho Hu. constructor.
        -- now apply (Rest m o Ho).
        -- apply (Hinv (S m) o Ho). rewrite Nat.add_succ_r.
           destruct (nth (S (i + m)) used false) eqn:Hk; [ | reflexivity ].
           assert (nth (S i + m) used' false = true); [ | simpl in *; congruence ].
           apply Mono. rewrite nth_set_true. simpl. rewrite Hk. apply orb_true_r.
      * simpl. split.
        -- constructor; [ exact Hline | ].
           eapply Forall_impl; [ | exact Hall ].
           intros s Hs. now inversion Hs.
        -- constructor; [ | exact Hpairs ].
           eapply Forall_impl; [ | exact Hall ].
           intros s Hs. now inversion Hs.
Qed.

Lemma merge_similar_lines_clusters (lines : list Line) (th : R) :
  merge_similar_lines lines th = map representative (clusters lines th).
Proof. destruct lines; reflexivity. Qed.

(** The result of [merge_similar_lines] is the list of the lines that
    opened the clusters. *)
Lemma merge_similar_lines_seeds (lines : list Line) (th : R) :
  merge_similar_lines lines th = map fst (clusters lines th).
Proof.
  rewrite merge_similar_lines_clusters. unfold clusters.
  apply scan_lines_representative.
  - apply sorted_reverse_sorted.
  - rewrite repeat_length. simpl. lia.
Qed.

Lemma merge_similar_lines_length (lines : list Line) (th : R) :
  (length (merge_similar_lines lines th) <= length lines)%nat.
Proof.
  rewrite merge_similar_lines_clusters, length_map. unfold clusters.
  etransitivity; [ apply scan_lines_length | ].
  now rewrite sorted_length.
Qed.

End MergeFacts.

(** ** Evaluating the detector on concrete segments *)

Module Evaluation.
Import Float FloatFacts Py PyFacts TriangleDetector Properties.

(** *** Orientations of axis-parallel and diagonal segments *)

Lemma angle_of (c : R) (k : Z) (y x : R) :
  arctan2 y x = c * PI ->
  IZR k * 180 <= c * 180 < (IZR k + 1) * 180 ->
  mod_ (degrees (arctan2 y x)) 180 = c * 180 - 180 * IZR k.
Proof.
  intros -> H. rewrite degrees_PI. apply mod_floor; lra.
Qed.

Lemma angle_horizontal (x1 y x2 : Z) :
  (x1 < x2)%Z -> get_line_angle (x1, y, x2, y) = 0.
Proof.
  intros H. unfold get_line_angle. rewrite Z.sub_diag.
  assert (Hx : 0 < IZR (x2 - x1)) by (apply IZR_lt; lia).
  rewrite (angle_of 0 0).
  - lra.
  - unfold arctan2. destruct (Rlt_dec 0 (IZR (x2 - x1))); [ | tauto ].
    unfold Rdiv. rewrite Rmult_0_l, atan_0. lra.
  - lra.
Qed.

Lemma angle_vertical (x y1 y2 : Z) :
  y1 <> y2 -> get_line_angle (x, y1, x, y2) = 90.
Proof.
  intros H. unfold get_line_angle. rewrite Z.sub_diag.
  destruct (Z_lt_le_dec y1 y2) as [Hlt | Hge].
  - assert (Hy : 0 < IZR (y2 - y1)) by (apply IZR_lt; lia).
    rewrite (angle_of (1 / 2) 0).
    + lra.
    + unfold arctan2.
      destruct (Rlt_dec 0 0); [ lra | ].
      destruct (Rlt_dec 0 (IZR (y2 - y1))); [ lra | tauto ].
    + lra.
  - assert (Hy : IZR (y2 - y1) < 0) by (apply IZR_lt; lia).
    rewrite (angle_of (- 1 / 2) (-1)).
    + lra.
    + unfold arctan2.
      destruct (Rlt_dec 0 0); [ lra | ].
      destruct (Rlt_dec 0 (IZR (y2 - y1))); [ lra | ].
      destruct (Rlt_dec (IZR (y2 - y1)) 0); [ lra | tauto ].
    + lra.
Qed.

Lemma angle_diagonal (x1 y1 x2 y2 : Z) :
  (x1 < x2)%Z -> (y2 - y1 = x2 - x1)%Z -> get_line_angle (x1, y1, x2, y2) = 45.
Proof.
  intros H E. unfold get_line_angle. rewrite E.
  assert (Hx : 0 < IZR (x2 - x1)) by (apply IZR_lt; lia).
  rewrite (angle_of (1 / 4) 0).
  - lra.
  - unfold arctan2. destruct (Rlt_dec 0 (IZR (x2 - x1))); [ | tauto ].
    replace (IZR (x2 - x1) / IZR (x2 - x1)) with 1 by (field; lra).
    rewrite atan_1. lra.
  - lra.
Qed.

Lemma angle_antidiagonal (x1 y1 x2 y2 : Z) :
  x1 <> x2 -> (y2 - y1 = - (x2 - x1))%Z -> get_line_angle (x1, y1, x2, y2) = 135.
Proof.
  intros H E. unfold get_line_angle. rewrite E, opp_IZR.
  set (dx := IZR (x2 - x1)).
  assert (Hdx : dx <> 0) by (apply not_0_IZR; lia).
  assert (Hq : - dx / dx = -1) by (field; assumption).
  destruct (Rlt_dec 0 dx) as [Hpos | Hneg].
  - rewrite (angle_of (- 1 / 4) (-1)).
    + lra.
    + unfold arctan2. destruct (Rlt_dec 0 dx); [ | tauto ].
      rewrite Hq, atan_opp_1. lra.
    + lra.
  - rewrite (angle_of (3 / 4) 0).
    + lra.
    + unfold arctan2. destruct (Rlt_dec 0 dx); [ tauto | ].
      destruct (Rlt_dec dx 0); [ | lra ].
      destruct (Rle_dec 0 (- dx)); [ | lra ].
      rewrite Hq, atan_opp_1. lra.
    + lra.
Qed.

(** *** Lengths compare as their squares *)

Lemma ltb_length (a b : Line) :
  ltb (get_line_length a) (get_line_length b)
  = (square_length a <? square_length b)%Z.
Proof.
  destruct a as [[[x1 y1] x2] y2], b as [[[x3 y3] x4] y4].
  unfold get_line_length, square_length.
  rewrite ltb_sqrt, ltb_IZR; [ reflexivity | | ]; apply IZR_le; nia.
Qed.

(** *** The intersection in integer arithmetic *)

Lemma find_line_intersection_quot (line1 line2 : Line) :
  find_line_intersection line1 line2
  = let '(x1, y1, x2, y2) := line1 in
    let '(x3, y3, x4, y4) := line2 in
    let d := denom line1 line2 in
    let n := ((x1 - x3) * (y3 - y4) - (y1 - y3) * (x3 - x4))%Z in
    if (d =? 0)%Z then None
    else Some (Z.quot (x1 * d + n * (x2 - x1)) d,
               Z.quot (y1 * d + n * (y2 - y1)) d).
Proof.
  destruct line1 as [[[x1 y1] x2] y2], line2 as [[[x3 y3] x4] y4].
  unfold find_line_intersection.
  set (d := denom _ _).
  set (n := ((x1 - x3) * (y3 - y4) - (y1 - y3) * (x3 - x4))%Z).
  cbv zeta. destruct (Z.eqb_spec d 0) as [E | E].
  - rewrite E. simpl Z.abs. rewrite (proj2 (ltb_true_iff 0 1e-10)) by lra.
    reflexivity.
  - assert (1 <= IZR (Z.abs d)) by (apply IZR_le; lia).
    rewrite (proj2 (ltb_false_iff (IZR (Z.abs d)) 1e-10)) by lra.
    assert (IZR d <> 0) by now apply not_0_IZR.
    rewrite <- !int_div by assumption.
    f_equal. f_equal; f_equal; rewrite plus_IZR, !mult_IZR; field; assumption.
Qed.

(** *** The border test and the ranking key in exact arithmetic *)

Lemma near_border_floor (height width : Z) (line : Line) :
  (0 <= Z.min height width)%Z ->
  near_border (height, width) line
  = let m := (Z.min height width * 5 / 100)%Z in
    let '(x1, y1, x2, y2) := line in
    (((x1 <? m) || (x1 >? width - m) || (y1 <? m) || (y1 >? height - m))
     && ((x2 <? m) || (x2 >? width - m) || (y2 <? m) || (y2 >? height - m)))%Z.
Proof.
  intros H. unfold near_border.
  rewrite DetectorFacts.border_margin_floor by assumption.
  destruct line as [[[x1 y1] x2] y2]. reflexivity.
Qed.

Lemma ltb_dist (c : R * R) (p q : Point) :
  ltb (dist_to_center c p) (dist_to_center c q)
  = ltb ((IZR (fst p) - fst c) ^ 2 + (IZR (snd p) - snd c) ^ 2)
        ((IZR (fst q) - fst c) ^ 2 + (IZR (snd q) - snd c) ^ 2).
Proof.
  destruct c as [cx cy], p as [px py], q as [qx qy]. unfold dist_to_center.
  apply ltb_sqrt; apply Rplus_le_le_0_compat; apply pow2_ge_0.
Qed.

(** *** Tactics that run the detector on literals *)

(** Length comparisons, through the squares. *)
Ltac eval_lengths :=
  repeat match goal with
         | |- context [ltb (get_line_length ?a) (get_line_length ?b)] =>
             let v := eval vm_compute in (square_length a <? square_length b)%Z in
             replace (ltb (get_line_length a) (get_line_length b)) with v
               by (rewrite ltb_length; reflexivity)
         end.

(** An inequality between closed real expressions. *)
Ltac decide_real :=
  unfold angle_diff, Rmin, Rabs;
  repeat match goal with
         | |- context [Rcase_abs ?x] => destruct (Rcase_abs x)
         | |- context [Rle_dec ?x ?y] => destruct (Rle_dec x y)
         end; lra.

(** The remaining float comparisons. *)
Ltac eval_ltb :=
  repeat match goal with
         | |- context [ltb ?a ?b] =>
             first [ rewrite (proj2 (ltb_true_iff a b)) by decide_real
                   | rewrite (proj2 (ltb_false_iff a b)) by decide_real ]
         end.

(** Integer tests. *)
Ltac eval_tests :=
  repeat match goal with
         | |- context [if ?b then _ else _] =>
             let v := eval vm_compute in b in
             replace b with v by (vm_compute; reflexivity); cbv iota
         end.

Ltac eval_sorted :=
  unfold sorted, sort_by; cbn [fold_right insert];
  repeat (eval_lengths; cbn [insert]).

Ltac eval_clusters :=
  unfold clusters;
  cbn [scan_lines scan_others length repeat nth set_true app];
  eval_ltb;
  cbn [scan_lines scan_others length repeat nth set_true app].

End Evaluation.

(** ** The three scenarios, run *)

Module ScenarioFacts.
Import Float FloatFacts Py PyFacts TriangleDetector.
Import Properties Scenarios DetectorFacts MergeFacts Evaluation.

(** *** A right triangle whose corners touch the frame *)



Lemma frame_border_margin : border_margin frame = 6%Z.
Proof.
  unfold frame. rewrite border_margin_floor by (vm_compute; discriminate).
  reflexivity.
Qed.

Lemma frame_tolerance : tolerance frame = 3%Z.
Proof.
  unfold frame. rewrite tolerance_floor by (vm_compute; discriminate).
  reflexivity.
Qed.

Lemma edge_triangle_filtered : filter_border_lines edge_triangle frame = [].
Proof.
  unfold filter_border_lines, edge_triangle, frame. cbn [filter].
  rewrite !near_border_floor by (vm_compute; discriminate).
  reflexivity.
Qed.

Lemma edge_triangle_merged : merged_lines edge_triangle frame = [].
Proof. unfold merged_lines. rewrite edge_triangle_filtered. reflexivity. Qed.

Lemma edge_triangle_vertices (out : Stdout) :
  returned (find_triangle_vertices edge_triangle frame) out = [].
Proof.
  rewrite find_triangle_vertices_returned, edge_triangle_merged. reflexivity.
Qed.

(** *** The same triangle moved 20 pixels into the frame *)


Lemma inner_A_angle : get_line_angle inner_A = 0.
Proof. apply angle_horizontal. lia. Qed.

Lemma inner_B_angle : get_line_angle inner_B = 135.
Proof. apply angle_antidiagonal; lia. Qed.

Lemma inner_C_angle : get_line_angle inner_C = 90.
Proof. apply angle_vertical. lia. Qed.

Lemma inner_triangle_filtered :
  filter_border_lines inner_triangle frame = inner_triangle.
Proof.
  unfold filter_border_lines, inner_triangle, frame. cbn [filter].
  rewrite !near_border_floor by (vm_compute; discriminate).
  reflexivity.
Qed.

Lemma inner_triangle_sorted :
  sorted get_line_length true inner_triangle = [inner_B; inner_A; inner_C].
Proof. unfold inner_triangle. eval_sorted. reflexivity. Qed.

Lemma inner_triangle_clusters :
  clusters [inner_B; inner_A; inner_C] 15
  = [(inner_B, []); (inner_A, []); (inner_C, [])].
Proof.
  unfold clusters.
  replace (sorted get_line_length true [inner_B; inner_A; inner_C])
    with [inner_B; inner_A; inner_C] by (eval_sorted; reflexivity).
  cbn [scan_lines scan_others length repeat nth set_true app].
  rewrite inner_A_angle, inner_B_angle, inner_C_angle. eval_ltb.
  cbn [scan_lines scan_others length repeat nth set_true app].
  reflexivity.
Qed.

Lemma inner_triangle_merge :
  merge_similar_lines [inner_B; inner_A; inner_C] 15
  = [inner_B; inner_A; inner_C].
Proof. rewrite merge_similar_lines_seeds, inner_triangle_clusters. reflexivity. Qed.

Lemma inner_triangle_merged :
  merged_lines inner_triangle frame = [inner_B; inner_A; inner_C].
Proof.
  unfold merged_lines.
  rewrite inner_triangle_filtered, inner_triangle_sorted. cbn [firstn].
  apply inner_triangle_merge.
Qed.

Lemma inner_B_A : find_line_intersection inner_B inner_A = Some (100, 20)%Z.
Proof. rewrite find_line_intersection_quot. reflexivity. Qed.

Lemma inner_B_C : find_line_intersection inner_B inner_C = Some (20, 100)%Z.
Proof. rewrite find_line_intersection_quot. reflexivity. Qed.

Lemma inner_A_C : find_line_intersection inner_A inner_C = Some (20, 20)%Z.
Proof. rewrite find_line_intersection_quot. reflexivity. Qed.

Lemma inner_triangle_centroid :
  centroid [inner_B; inner_A; inner_C] = (140 / 3, 140 / 3).
Proof. unfold centroid, all_points. cbn. f_equal; field. Qed.

Lemma inner_triangle_candidates :
  candidates [inner_B; inner_A; inner_C] frame
  = let c := (140 / 3, 140 / 3) in
    [ ((100, 20)%Z, dist_to_center c (100, 20)%Z);
      ((20, 100)%Z, dist_to_center c (20, 100)%Z);
      ((20, 20)%Z, dist_to_center c (20, 20)%Z) ].
Proof.
  unfold candidates, frame.
  rewrite border_margin_floor by (vm_compute; discriminate).
  rewrite inner_triangle_centroid.
  cbn [firstn combinations2 map app flat_map].
  rewrite inner_B_A, inner_B_C, inner_A_C. cbv beta iota. eval_tests.
  reflexivity.
Qed.

Lemma inner_triangle_ranked :
  ranked [inner_B; inner_A; inner_C] frame
  = let c := (140 / 3, 140 / 3) in
    [ ((20, 20)%Z, dist_to_center c (20, 20)%Z);
      ((100, 20)%Z, dist_to_center c (100, 20)%Z);
      ((20, 100)%Z, dist_to_center c (20, 100)%Z) ].
Proof.
  unfold ranked. rewrite inner_triangle_candidates. cbv zeta.
  unfold sorted, sort_by. cbn [fold_right insert snd].
  rewrite !ltb_dist. cbn [fst snd]. eval_ltb.
  cbn [insert snd]. rewrite !ltb_dist. cbn [fst snd]. eval_ltb.
  reflexivity.
Qed.

Lemma inner_triangle_vertices (out : Stdout) :
  returned (find_triangle_vertices inner_triangle frame) out
  = [(20, 20); (100, 20); (20, 100)]%Z.
Proof.
  rewrite find_triangle_vertices_returned, inner_triangle_merged.
  rewrite inner_triangle_ranked, frame_tolerance. cbv zeta.
  generalize (dist_to_center (140 / 3, 140 / 3)). intros d.
  reflexivity.
Qed.

(** *** A vertical segment between two diagonals *)


Lemma fan_V_angle : get_line_angle fan_V = 90.
Proof. apply angle_vertical. lia. Qed.

Lemma fan_D1_angle : get_line_angle fan_D1 = 45.
Proof. apply angle_diagonal; lia. Qed.

Lemma fan_D2_angle : get_line_angle fan_D2 = 135.
Proof. apply angle_antidiagonal; lia. Qed.

Lemma fan_clusters : clusters fan 50 = [(fan_V, [fan_D1; fan_D2])].
Proof.
  unfold clusters, fan.
  replace (sorted get_line_length true [fan_V; fan_D1; fan_D2])
    with [fan_V; fan_D1; fan_D2] by (eval_sorted; reflexivity).
  cbn [scan_lines scan_others length repeat nth set_true app].
  rewrite fan_V_angle, fan_D1_angle, fan_D2_angle. eval_ltb.
  cbn [scan_lines scan_others length repeat nth set_true app].
  reflexivity.
Qed.

Lemma fan_diagonals_apart :
  angle_diff (get_line_angle fan_D1) (get_line_angle fan_D2) = 90.
Proof. rewrite fan_D1_angle, fan_D2_angle. decide_real. Qed.

End ScenarioFacts.

(** ** Facts about the ranking *)

Module RankingFacts.
Import Float FloatFacts Py PyFacts TriangleDetector Ranking.






End RankingFacts.

(** ** The specification's claims *)

Import Float Py TriangleDetector Properties.

(** C1, as stated, fails: on the triangle whose corners touch the frame the
    detector does not return three vertices. *)
Lemma edge_triangle_not_three_vertices :
  length (returned (find_triangle_vertices Scenarios.edge_triangle Scenarios.frame) [])
  <> 3%nat.
Proof. rewrite ScenarioFacts.edge_triangle_vertices. discriminate. Qed.

(** C1, amended: for A=(0,0,100,0), B=(100,0,0,100), C=(0,100,0,0) in a
    120x120 frame the border margin is 6, the border filter drops all three
    segments (both endpoints of each are within the margin of the frame) and
    [find_triangle_vertices] returns the empty list.  The same triangle moved
    by (20,20) keeps its three segments and yields exactly the three
    vertices (20,20), (100,20), (20,100). *)
Theorem edge_triangle_yields_nothing :
  border_margin Scenarios.frame = 6%Z
  /\ filter_border_lines Scenarios.edge_triangle Scenarios.frame = []
  /\ (forall out,
         returned (find_triangle_vertices Scenarios.edge_triangle Scenarios.frame) out
         = [])
  /\ (forall out,
         returned (find_triangle_vertices Scenarios.inner_triangle Scenarios.frame) out
         = [(20, 20); (100, 20); (20, 100)]%Z).
Proof.
  repeat split.
  - apply ScenarioFacts.frame_border_margin.
  - apply ScenarioFacts.edge_triangle_filtered.
  - apply ScenarioFacts.edge_triangle_vertices.
  - apply ScenarioFacts.inner_triangle_vertices.
Qed.

(** C2, as stated, fails: with threshold 50 the vertical segment (0,0,0,200)
    takes both diagonals (0,0,100,100) and (0,0,100,-100) into its cluster,
    although the diagonals are 90 degrees apart. *)
Lemma fan_merges_far_pair : merges_far_pair Scenarios.fan 50.
Proof.
  exists (Scenarios.fan_V, [Scenarios.fan_D1; Scenarios.fan_D2]),
         Scenarios.fan_D1, Scenarios.fan_D2.
  rewrite ScenarioFacts.fan_clusters, ScenarioFacts.fan_diagonals_apart.
  repeat split.
  - now left.
  - right. now left.
  - right. right. now left.
  - discriminate.
  - lra.
Qed.

(** C2, amended: [merge_similar_lines] returns a list no longer than its
    input, and every segment appended to a cluster has circular angular
    distance strictly below the threshold to the segment that opened the
    cluster. *)
Theorem merge_similar_lines_bounded :
  forall (lines : list Line) (angle_thresh : R),
    (length (merge_similar_lines lines angle_thresh) <= length lines)%nat
    /\ Forall (fun g : Group =>
                 Forall (fun other =>
                           angle_diff (get_line_angle (fst g)) (get_line_angle other)
                           < angle_thresh)
                        (snd g))
              (clusters lines angle_thresh).
Proof.
  intros lines th. split.
  - apply MergeFacts.merge_similar_lines_length.
  - unfold clusters. apply MergeFacts.scan_lines_members.
    rewrite repeat_length. simpl. lia.
Qed.

(** C3: any two vertices at different positions of the returned list differ
    by at least the tolerance along x or along y (the test is per axis), where
    the tolerance is [int(min(height, width) * 0.03)], which for an image is
    the floor of 3% of its smaller dimension. *)
Theorem vertices_pairwise_apart :
  forall (lines : list Line) (height width : Z) (out : Stdout),
    let vertices := returned (find_triangle_vertices lines (height, width)) out in
    let tol := tolerance (height, width) in
    (forall (i j : nat) (vi vj : Point),
        i <> j ->
        nth_error vertices i = Some vi ->
        nth_error vertices j = Some vj ->
        ~ ((Z.abs (fst vi - fst vj) < tol)%Z /\ (Z.abs (snd vi - snd vj) < tol)%Z))
    /\ ((0 <= Z.min height width)%Z -> tol = (Z.min height width * 3 / 100)%Z).
Proof.
  intros lines height width out vertices tol. split.
  - intros i j vi vj Hij Hi Hj.
    pose proof (DetectorFacts.returned_apart lines (height, width) out) as H.
    destruct (Nat.lt_ge_cases i j) as [Hlt | Hge].
    + exact (DetectorFacts.ForallOrdPairs_nth _ _ H i j vi vj Hlt Hi Hj).
    + apply DetectorFacts.apart_sym.
      apply (DetectorFacts.ForallOrdPairs_nth _ _ H j i vj vi); auto. lia.
  - apply DetectorFacts.tolerance_floor.
Qed.

Lemma vertices_pairwise_apart_witness :
  ~ ((Z.abs (20 - 100) < tolerance (120, 120))%Z
     /\ (Z.abs (20 - 20) < tolerance (120, 120))%Z).
Proof.
  refine (proj1 (vertices_pairwise_apart Scenarios.inner_triangle 120 120 [])
                0%nat 1%nat (20, 20)%Z (100, 20)%Z _ _ _).
  - discriminate.
  - fold Scenarios.frame. rewrite ScenarioFacts.inner_triangle_vertices. reflexivity.
  - fold Scenarios.frame. rewrite ScenarioFacts.inner_triangle_vertices. reflexivity.
Defined.

(** C4: [find_triangle_vertices] never returns more than 3 vertices. *)
Theorem at_most_three_vertices :
  forall (lines : list Line) (img_shape : Shape) (out : Stdout),
    (length (returned (find_triangle_vertices lines img_shape) out) <= 3)%nat.
Proof.
  intros lines img_shape out.
  rewrite DetectorFacts.find_triangle_vertices_returned.
  destruct (_ <? 3)%nat; [ simpl; lia | apply firstn_le_length ].
Qed.

(** C5: when fewer than 3 merged lines remain after border filtering and
    merging, [find_triangle_vertices] prints that there are not enough lines
    and returns the empty list; this is the case for no input line and for a
    single input segment. *)
Theorem too_few_lines_no_vertices :
  (forall (lines : list Line) (img_shape : Shape) (out : Stdout),
      (length (merged_lines lines img_shape) < 3)%nat ->
      returned (find_triangle_vertices lines img_shape) out = []
      /\ printed (find_triangle_vertices lines img_shape) out
         = out ++ [ LogProcessing (length lines);
                    LogAfterFiltering (length (filter_border_lines lines img_shape));
                    LogTopLengths
                      (map (fun l => Float.int (get_line_length l))
                           (firstn 5 (Py.sorted get_line_length true
                                        (filter_border_lines lines img_shape))));
                    LogAfterMerging (length (merged_lines lines img_shape));
                    LogNotEnough ])
  /\ (forall (img_shape : Shape) (out : Stdout),
         returned (find_triangle_vertices [] img_shape) out = [])
  /\ (forall (line : Line) (img_shape : Shape) (out : Stdout),
         returned (find_triangle_vertices [line] img_shape) out = []).
Proof.
  assert (Few : forall lines img_shape out,
             (length (merged_lines lines img_shape) < 3)%nat ->
             returned (find_triangle_vertices lines img_shape) out = []).
  { intros lines img_shape out H.
    rewrite DetectorFacts.find_triangle_vertices_returned.
    now rewrite (proj2 (Nat.ltb_lt _ _) H). }
  assert (Short : forall lines img_shape,
             (length (merged_lines lines img_shape) <= length lines)%nat).
  { intros lines img_shape. unfold merged_lines.
    etransitivity; [ apply MergeFacts.merge_similar_lines_length | ].
    rewrite length_firstn.
    etransitivity; [ apply Nat.le_min_r | ].
    rewrite PyFacts.sorted_length. unfold filter_border_lines.
    apply filter_length_le. }
  split; [ | split ].
  - intros lines img_shape out H. split; [ now apply Few | ].
    unfold printed, find_triangle_vertices, bind, print, ret.
    cbv beta iota. fold (merged_lines lines img_shape).
    rewrite (proj2 (Nat.ltb_lt _ _) H). cbn [snd].
    rewrite <- !app_assoc. reflexivity.
  - intros img_shape out. apply Few. specialize (Short [] img_shape). cbn [length] in Short. lia.
  - intros line img_shape out. apply Few.
    specialize (Short [line] img_shape). cbn [length] in Short. lia.
Qed.

Lemma too_few_lines_no_vertices_witness :
  returned (find_triangle_vertices Scenarios.edge_triangle Scenarios.frame) [] = [].
Proof.
  refine (proj1 (proj1 too_few_lines_no_vertices
                       Scenarios.edge_triangle Scenarios.frame [] _)).
  rewrite ScenarioFacts.edge_triangle_merged. simpl. lia.
Defined.

(** C6: [find_line_intersection] returns [None] exactly when
    [abs(denom) < 1e-10] for
    [denom = (x1-x2)(y3-y4) - (y1-y2)(x3-x4)] (for integer endpoints: exactly
    when [denom] is 0); the parallel segments (0,0,10,0) and (0,5,10,5) give
    [None]. *)
Theorem no_intersection_iff_small_denom :
  (forall (x1 y1 x2 y2 x3 y3 x4 y4 : Z),
      let line1 : Line := (x1, y1, x2, y2) in
      let line2 : Line := (x3, y3, x4, y4) in
      denom line1 line2 = ((x1 - x2) * (y3 - y4) - (y1 - y2) * (x3 - x4))%Z
      /\ (find_line_intersection line1 line2 = None
          <-> IZR (Z.abs (denom line1 line2)) < 1e-10)
      /\ (find_line_intersection line1 line2 = None <-> denom line1 line2 = 0%Z))
  /\ find_line_intersection (0, 0, 10, 0)%Z (0, 5, 10, 5)%Z = None.
Proof.
  split.
  - intros x1 y1 x2 y2 x3 y3 x4 y4 line1 line2.
    split; [ reflexivity | ].
    assert (Small : IZR (Z.abs (denom line1 line2)) < 1e-10
                    <-> denom line1 line2 = 0%Z).
    { split.
      - intros H. destruct (Z.eq_dec (denom line1 line2) 0) as [E | E]; [ exact E | ].
        assert (1 <= IZR (Z.abs (denom line1 line2))) by (apply IZR_le; lia). lra.
      - intros ->. simpl. lra. }
    assert (Test : find_line_intersection line1 line2 = None
                   <-> IZR (Z.abs (denom line1 line2)) < 1e-10).
    { unfold find_line_intersection, line1, line2.
      fold line1 line2. unfold Float.ltb.
      destruct (Rlt_dec (IZR (Z.abs (denom line1 line2))) 1e-10);
        split; intros; try discriminate; tauto. }
    split; [ exact Test | ]. rewrite Test. exact Small.
  - rewrite Evaluation.find_line_intersection_quot. reflexivity.
Qed.

Lemma no_intersection_iff_small_denom_witness :
  find_line_intersection (1, 1, 3, 3)%Z (0, 0, 5, 5)%Z = None.
Proof.
  refine (proj2 (proj1 (proj2 (proj1 no_intersection_iff_small_denom
                                     1 1 3 3 0 0 5 5)%Z)) _).
  simpl. lra.
Defined.

(** C7: the perpendicular segments (0,50,100,50) and (50,0,50,100) intersect
    exactly at (50,50). *)
Theorem perpendicular_cross_at_50_50 :
  find_line_intersection (0, 50, 100, 50)%Z (50, 0, 50, 100)%Z = Some (50, 50)%Z.
Proof.
  unfold find_line_intersection, denom. simpl Z.abs.
  rewrite (proj2 (FloatFacts.ltb_false_iff _ _)) by (simpl; lra).
  simpl Z.sub. simpl Z.mul.
  replace (0 + 5000 / 10000 * 100) with (IZR 50) by lra.
  replace (50 + 5000 / 10000 * 0) with (IZR 50) by lra.
  now rewrite FloatFacts.int_IZR.
Qed.

(** C8: the border filter is idempotent: filtering the filter's own output
    with the same image shape changes nothing.  The filter keeps a segment
    unless each of its two endpoints lies within the margin
    [int(min(height, width) * 0.05)] of some edge of the image. *)
Theorem border_filter_idempotent :
  forall (lines : list Line) (img_shape : Shape),
    filter_border_lines (filter_border_lines lines img_shape) img_shape
    = filter_border_lines lines img_shape.
Proof.
  intros lines img_shape. unfold filter_border_lines.
  induction lines as [ | line rest IH]; simpl.
  - reflexivity.
  - destruct (near_border img_shape line) eqn:E; simpl.
    + exact IH.
    + rewrite E. simpl. now rewrite IH.
Qed.



(** C10: the list returned by [merge_similar_lines] consists of the segments
    that opened the clusters, and any two segments at different positions of
    it have circular angular distance at least the threshold. *)
Theorem merged_lines_pairwise_far :
  forall (lines : list Line) (angle_thresh : R),
    merge_similar_lines lines angle_thresh = map fst (clusters lines angle_thresh)
    /\ forall (i j : nat) (a b : Line),
        i <> j ->
        nth_error (merge_similar_lines lines angle_thresh) i = Some a ->
        nth_error (merge_similar_lines lines angle_thresh) j = Some b ->
        angle_thresh
        <= Rmin (Rabs (get_line_angle a - get_line_angle b))
                (180 - Rabs (get_line_angle a - get_line_angle b)).
Proof.
  intros lines th. split; [ apply MergeFacts.merge_similar_lines_seeds | ].
  intros i j a b Hij Hi Hj.
  rewrite MergeFacts.merge_similar_lines_seeds in Hi, Hj.
  destruct (MergeFacts.scan_lines_seeds th
              (Py.sorted get_line_length true lines) 0
              (repeat false (length (Py.sorted get_line_length true lines))) [])
    as [_ Hpairs].
  - rewrite repeat_length. simpl. lia.
  - intros m o _ _. constructor.
  - fold (clusters lines th) in Hpairs.
    fold (angle_diff (get_line_angle a) (get_line_angle b)).
    destruct (Nat.lt_ge_cases i j) as [Hlt | Hge].
    + exact (DetectorFacts.ForallOrdPairs_nth _ _ Hpairs i j a b Hlt Hi Hj).
    + rewrite MergeFacts.angle_diff_sym.
      apply (DetectorFacts.ForallOrdPairs_nth _ _ Hpairs j i b a); auto. lia.
Qed.

Lemma merged_lines_pairwise_far_witness :
  15 <= Rmin (Rabs (get_line_angle Scenarios.inner_B - get_line_angle Scenarios.inner_A))
             (180 - Rabs (get_line_angle Scenarios.inner_B
                          - get_line_angle Scenarios.inner_A)).
Proof.
  refine (proj2 (merged_lines_pairwise_far
                   [Scenarios.inner_B; Scenarios.inner_A; Scenarios.inner_C] 15)
                0%nat 1%nat Scenarios.inner_B Scenarios.inner_A _ _ _).
  - discriminate.
  - rewrite ScenarioFacts.inner_triangle_merge. reflexivity.
  - rewrite ScenarioFacts.inner_triangle_merge. reflexivity.
Defined.


(** ** Further facts about the float operations *)

Module AngleFacts.
Import Float FloatFacts TriangleDetector Auxiliary.

Lemma mod_range (a m : R) : 0 < m -> 0 <= mod_ a m < m.
Proof.
  intros Hm. unfold mod_.
  destruct (base_Int_part (a / m)) as [H1 H2].
  set (k := IZR (Int_part (a / m))) in *.
  assert (E : a = m * (a / m)) by (field; lra).
  set (q := a / m) in *. rewrite E.
  split; nra.
Qed.

Lemma get_line_angle_range (line : Line) : 0 <= get_line_angle line < 180.
Proof.
  destruct line as [[[x1 y1] x2] y2]. unfold get_line_angle.
  apply mod_range. lra.
Qed.

(** A horizontal segment, whichever endpoint comes first, and a segment
    reduced to a point. *)
Lemma angle_level (x1 y x2 : Z) : get_line_angle (x1, y, x2, y) = 0.
Proof.
  destruct (Z.lt_trichotomy x1 x2) as [H | [-> | H]].
  - now apply Evaluation.angle_horizontal.
  - unfold get_line_angle. rewrite !Z.sub_diag.
    rewrite (Evaluation.angle_of 0 0); [ lra | | lra ].
    unfold arctan2. destruct (Rlt_dec 0 0); [ lra | ]. lra.
  - unfold get_line_angle. rewrite Z.sub_diag.
    assert (Hx : IZR (x2 - x1) < 0) by (apply IZR_lt; lia).
    rewrite (Evaluation.angle_of 1 1); [ lra | | lra ].
    unfold arctan2.
    destruct (Rlt_dec 0 (IZR (x2 - x1))); [ lra | ].
    destruct (Rlt_dec (IZR (x2 - x1)) 0); [ | lra ].
    destruct (Rle_dec 0 0); [ | lra ].
    unfold Rdiv. rewrite Rmult_0_l, atan_0. lra.
Qed.

(** A rising diagonal, whichever endpoint comes first. *)
Lemma angle_rising (x1 y1 x2 y2 : Z) :
  x1 <> x2 -> (y2 - y1 = x2 - x1)%Z -> get_line_angle (x1, y1, x2, y2) = 45.
Proof.
  intros H E. destruct (Z_lt_le_dec x1 x2) as [Hlt | Hge].
  - now apply Evaluation.angle_diagonal.
  - unfold get_line_angle. rewrite E.
    set (dx := IZR (x2 - x1)).
    assert (Hdx : dx < 0) by (apply IZR_lt; lia).
    rewrite (Evaluation.angle_of (- 3 / 4) (-1)); [ lra | | lra ].
    unfold arctan2.
    destruct (Rlt_dec 0 dx); [ lra | ].
    destruct (Rlt_dec dx 0); [ | lra ].
    destruct (Rle_dec 0 dx); [ lra | ].
    replace (dx / dx) with 1 by (field; lra).
    rewrite atan_1. lra.
Qed.

(** The circular distance of two orientations lies between 0 and 90. *)
Lemma angle_diff_range (a b : R) :
  0 <= a < 180 -> 0 <= b < 180 -> 0 <= angle_diff a b <= 90.
Proof.
  intros Ha Hb. unfold angle_diff, Rmin, Rabs.
  destruct (Rcase_abs (a - b)); destruct (Rle_dec _ _); lra.
Qed.

Lemma angle_diff_lines (a b : Line) :
  0 <= angle_diff (get_line_angle a) (get_line_angle b) <= 90.
Proof. apply angle_diff_range; apply get_line_angle_range. Qed.

Lemma square_length_reversed (line : Line) :
  Properties.square_length (reversed line) = Properties.square_length line.
Proof.
  destruct line as [[[x1 y1] x2] y2]. unfold Properties.square_length, reversed. ring.
Qed.

Lemma get_line_length_square (line : Line) :
  get_line_length line = sqrt (IZR (Properties.square_length line)).
Proof. destruct line as [[[x1 y1] x2] y2]. reflexivity. Qed.

Lemma square_length_nonneg (line : Line) : (0 <= Properties.square_length line)%Z.
Proof. destruct line as [[[x1 y1] x2] y2]. unfold Properties.square_length. nia. Qed.

End AngleFacts.

(** ** Further properties of the detector *)

(** X1: the length of a segment is not negative, is 0 exactly for a segment
    whose endpoints coincide, does not change when the endpoints are
    exchanged, and lies between the larger and the sum of the horizontal and
    vertical extents. *)
Theorem get_line_length_properties :
  forall (x1 y1 x2 y2 : Z),
    let line : Line := (x1, y1, x2, y2) in
    0 <= get_line_length line
    /\ (get_line_length line = 0 <-> x1 = x2 /\ y1 = y2)
    /\ get_line_length (x2, y2, x1, y1) = get_line_length line
    /\ IZR (Z.max (Z.abs (x2 - x1)) (Z.abs (y2 - y1))) <= get_line_length line
    /\ get_line_length line <= IZR (Z.abs (x2 - x1) + Z.abs (y2 - y1)).
Proof.
  intros x1 y1 x2 y2 line.
  pose proof (AngleFacts.square_length_nonneg line) as Hsq.
  assert (Hsq' : 0 <= IZR (square_length line)) by now apply IZR_le.
  rewrite !AngleFacts.get_line_length_square.
  change (x2, y2, x1, y1) with (Auxiliary.reversed line).
  rewrite AngleFacts.square_length_reversed.
  split; [ apply sqrt_pos | ].
  split; [ | split; [ reflexivity | ] ].
  - split.
    + intros H. apply sqrt_eq_0 in H; [ | exact Hsq' ].
      apply eq_IZR in H. unfold square_length, line in H. nia.
    + intros [-> ->]. unfold square_length, line.
      replace ((x2 - x2) ^ 2 + (y2 - y2) ^ 2)%Z with 0%Z by ring.
      apply sqrt_0.
  - set (m := Z.max (Z.abs (x2 - x1)) (Z.abs (y2 - y1))).
    set (s := (Z.abs (x2 - x1) + Z.abs (y2 - y1))%Z).
    assert (Hm : (0 <= m)%Z) by (unfold m; lia).
    assert (Hs : (0 <= s)%Z) by (unfold s; lia).
    assert (Hlow : (m * m <= square_length line)%Z)
      by (unfold square_length, line, m; nia).
    assert (Hhigh : (square_length line <= s * s)%Z)
      by (unfold square_length, line, s; nia).
    split.
    + rewrite <- (sqrt_square (IZR m)) by now apply IZR_le.
      apply sqrt_le_1_alt. rewrite <- mult_IZR. now apply IZR_le.
    + rewrite <- (sqrt_square (IZR s)) by now apply IZR_le.
      apply sqrt_le_1_alt. rewrite <- mult_IZR. now apply IZR_le.
Qed.

(** X2: the angle of a segment lies in [0, 180).  A horizontal segment has
    angle 0, a vertical one 90, a rising diagonal 45 and a falling diagonal
    135, whichever of its endpoints comes first: for these segments the
    direction does not matter, only the orientation. *)
Theorem get_line_angle_orientation :
  forall (x1 y1 x2 y2 : Z),
    0 <= get_line_angle (x1, y1, x2, y2) < 180
    /\ (y1 = y2 -> get_line_angle (x1, y1, x2, y2) = 0)
    /\ (x1 = x2 -> y1 <> y2 -> get_line_angle (x1, y1, x2, y2) = 90)
    /\ (x1 <> x2 -> (y2 - y1 = x2 - x1)%Z ->
        get_line_angle (x1, y1, x2, y2) = 45)
    /\ (x1 <> x2 -> (y2 - y1 = - (x2 - x1))%Z ->
        get_line_angle (x1, y1, x2, y2) = 135).
Proof.
  intros x1 y1 x2 y2. split; [ apply AngleFacts.get_line_angle_range | ].
  split; [ | split; [ | split ] ].
  - intros ->. apply AngleFacts.angle_level.
  - intros -> H. now apply Evaluation.angle_vertical.
  - apply AngleFacts.angle_rising.
  - apply Evaluation.angle_antidiagonal.
Qed.

Lemma get_line_angle_orientation_witness :
  get_line_angle (7, 9, 3, 5)%Z = 45.
Proof.
  refine (proj1 (proj2 (proj2 (proj2 (get_line_angle_orientation 7 9 3 5)))) _ _).
  - discriminate.
  - reflexivity.
Defined.

(** ** Further facts about the clustering loop *)

Module ClusterFacts.
Import Float FloatFacts Py PyFacts TriangleDetector Auxiliary MergeFacts.

(** A list that is already in order is left alone by the sort. *)
Lemma sort_by_sorted_id {A : Type} (prec : A -> A -> bool) (l : list A) :
  StronglySorted (in_order prec) l -> sort_by prec l = l.
Proof.
  induction 1 as [ | x xs Hs IH Hall]; simpl.
  - reflexivity.
  - rewrite IH. destruct xs as [ | y ys]; [ reflexivity | ].
    simpl. inversion Hall as [ | ? ? Hy _]; subst.
    unfold in_order in Hy. now rewrite Hy.
Qed.

Lemma sorted_reverse_id (l : list Line) :
  StronglySorted (fun a b => get_line_length b <= get_line_length a) l ->
  sorted get_line_length true l = l.
Proof.
  intros H. unfold sorted. apply sort_by_sorted_id.
  eapply StronglySorted_impl; [ | exact H ].
  intros a b Hab. unfold in_order. now apply ltb_false_iff.
Qed.

Lemma StronglySorted_incl {A : Type} (R : A -> A -> Prop) (a : A) (l l' : list A) :
  Forall (R a) l -> incl l' l -> Forall (R a) l'.
Proof.
  intros H Hincl. apply Forall_forall. intros x Hx.
  rewrite Forall_forall in H. apply H, Hincl, Hx.
Qed.

(** The inner loop only appends lines that it scans. *)
Lemma scan_others_incl (angle th : R) (others : list Line) :
  forall j used appended used' appended',
    scan_others angle th others j used appended = (used', appended') ->
    exists added, appended' = appended ++ added /\ incl added others.
Proof.
  induction others as [ | other rest IH]; intros j used appended used' appended' E.
  - simpl in E. injection E as <- <-. exists []. split.
    + now rewrite app_nil_r.
    + intros x [].
  - simpl in E.
    destruct (nth j used false);
      [ | destruct (Float.ltb (angle_diff angle (get_line_angle other)) th) ];
      apply IH in E; destruct E as (added & -> & Hincl).
    + exists added. split; [ reflexivity | ]. intros x Hx. right. now apply Hincl.
    + exists (other :: added). split; [ now rewrite <- app_assoc | ].
      intros x [<- | Hx]; [ now left | right; now apply Hincl ].
    + exists added. split; [ reflexivity | ]. intros x Hx. right. now apply Hincl.
Qed.

(** The inner loop does not touch the marks below its start. *)
Lemma scan_others_below (angle th : R) (others : list Line) :
  forall j used appended used' appended',
    scan_others angle th others j used appended = (used', appended') ->
    forall k, (k < j)%nat -> nth k used' false = nth k used false.
Proof.
  induction others as [ | other rest IH]; intros j used appended used' appended' E k Hk.
  - simpl in E. now injection E as <- <-.
  - simpl in E.
    destruct (nth j used false);
      [ | destruct (Float.ltb (angle_diff angle (get_line_angle other)) th) ].
    + apply (IH _ _ _ _ _ E). lia.
    + rewrite (IH _ _ _ _ _ E) by lia. rewrite nth_set_true.
      replace (k =? j)%nat with false by (symmetry; apply Nat.eqb_neq; lia).
      reflexivity.
    + apply (IH _ _ _ _ _ E). lia.
Qed.

(** When nothing scanned is close to the seed the inner loop changes
    nothing. *)
Lemma scan_others_none (angle th : R) (others : list Line) :
  Forall (fun o => th <= angle_diff angle (get_line_angle o)) others ->
  forall j used appended,
    scan_others angle th others j used appended = (used, appended).
Proof.
  induction 1 as [ | other rest Ho _ IH]; intros j used appended; simpl.
  - reflexivity.
  - rewrite (proj2 (ltb_false_iff _ _) Ho).
    destruct (nth j used false); apply IH.
Qed.

(** Lines that are pairwise at least the threshold apart each open a cluster
    of their own. *)
Lemma scan_lines_no_merge (th : R) (lines : list Line) :
  ForallOrdPairs (fun a b => th <= angle_diff (get_line_angle a) (get_line_angle b))
                 lines ->
  forall i used,
    (forall m, (m < length lines)%nat -> nth (i + m) used false = false) ->
    scan_lines th lines i used = map (fun l => (l, [])) lines.
Proof.
  induction 1 as [ | line rest Hline _ IH]; intros i used Hused; simpl.
  - reflexivity.
  - rewrite <- (Nat.add_0_r i) at 1. rewrite (Hused 0%nat) by (simpl; lia).
    rewrite (scan_others_none _ _ _ Hline). f_equal.
    apply IH. intros m Hm. rewrite nth_set_true.
    replace (S i + m =? i)%nat with false by (symmetry; apply Nat.eqb_neq; lia).
    simpl. specialize (Hused (S m)). rewrite Nat.add_succ_r in Hused.
    apply Hused. simpl. lia.
Qed.

(** Lines that are all marked open no cluster. *)
Lemma scan_lines_all_used (th : R) (lines : list Line) :
  forall i used,
    (forall m, (m < length lines)%nat -> nth (i + m) used false = true) ->
    scan_lines th lines i used = [].
Proof.
  induction lines as [ | line rest IH]; intros i used Hused; simpl.
  - reflexivity.
  - rewrite <- (Nat.add_0_r i) at 1. rewrite (Hused 0%nat) by (simpl; lia).
    apply IH. intros m Hm. specialize (Hused (S m)).
    rewrite Nat.add_succ_r in Hused. apply Hused. simpl. lia.
Qed.

(** Every cluster consists of scanned lines. *)
Lemma scan_lines_incl (th : R) (lines : list Line) :
  forall i used (g : Group),
    In g (scan_lines th lines i used) -> incl (members g) lines.
Proof.
  induction lines as [ | line rest IH]; intros i used g Hg; simpl in Hg.
  - destruct Hg.
  - destruct (nth i used false).
    + intros x Hx. right. exact (IH _ _ _ Hg x Hx).
    + destruct (scan_others _ _ _ _ _ _) as [used' appended] eqn:E.
      apply scan_others_incl in E. destruct E as (added & E & Hincl).
      simpl in E. subst appended.
      destruct Hg as [<- | Hg].
      * intros x [<- | Hx]; [ now left | right; now apply Hincl ].
      * intros x Hx. right. exact (IH _ _ _ Hg x Hx).
Qed.

(** The lines that open clusters keep the order of the scanned list. *)
Lemma scan_lines_seeds_sorted (rel : Line -> Line -> Prop) (th : R)
      (lines : list Line) :
  StronglySorted rel lines ->
  forall i used, StronglySorted rel (map fst (scan_lines th lines i used)).
Proof.
  induction 1 as [ | line rest Hs IH Hall]; intros i used; simpl.
  - constructor.
  - destruct (nth i used false); [ apply IH | ].
    destruct (scan_others _ _ _ _ _ _) as [used' appended]. simpl.
    constructor; [ apply IH | ].
    apply Forall_forall. intros s Hs'.
    apply in_map_iff in Hs'. destruct Hs' as (g & <- & Hg).
    rewrite Forall_forall in Hall. apply Hall.
    apply (scan_lines_incl _ _ _ _ _ Hg). now left.
Qed.

Lemma unused_from_ext (lines : list Line) :
  forall i used1 used2,
    (forall k, (i <= k)%nat -> nth k used1 false = nth k used2 false) ->
    unused_from lines i used1 = unused_from lines i used2.
Proof.
  induction lines as [ | line rest IH]; intros i used1 used2 H; simpl.
  - reflexivity.
  - rewrite (H i) by lia.
    rewrite (IH (S i) used1 used2) by (intros k Hk; apply H; lia).
    reflexivity.
Qed.

Lemma unused_from_repeat (lines : list Line) (n i : nat) :
  unused_from lines i (repeat false n) = lines.
Proof.
  revert i. induction lines as [ | line rest IH]; intros i; simpl.
  - reflexivity.
  - replace (nth i (repeat false n) false) with false.
    + now rewrite IH.
    + symmetry. clear. revert i.
      induction n as [ | n IHn]; intros [ | i]; simpl; auto.
Qed.

(** The inner loop moves lines from the unmarked ones into the group. *)
Lemma scan_others_partition (angle th : R) (others : list Line) :
  forall j used appended used' appended',
    scan_others angle th others j used appended = (used', appended') ->
    (j + length others <= length used)%nat ->
    exists added,
      appended' = appended ++ added
      /\ Permutation (added ++ unused_from others j used')
                     (unused_from others j used).
Proof.
  induction others as [ | other rest IH];
    intros j used appended used' appended' E Hlen.
  - simpl in E. injection E as <- <-. exists []. split.
    + now rewrite app_nil_r.
    + apply Permutation_refl.
  - simpl in E, Hlen. simpl unused_from.
    destruct (nth j used false) eqn:Hj.
    + pose proof (scan_others_below _ _ _ _ _ _ _ _ E j (Nat.lt_succ_diag_r j)) as Hb.
      apply IH in E; [ | lia ]. destruct E as (added & -> & Hperm).
      exists added. split; [ reflexivity | ]. now rewrite Hb, Hj.
    + destruct (Float.ltb (angle_diff angle (get_line_angle other)) th) eqn:Hlt.
      * pose proof (scan_others_below _ _ _ _ _ _ _ _ E j (Nat.lt_succ_diag_r j)) as Hb.
        apply IH in E; [ | rewrite set_true_length; lia ].
        destruct E as (added & -> & Hperm).
        exists (other :: added). split; [ now rewrite <- app_assoc | ].
        rewrite Hb, nth_set_true, Nat.eqb_refl.
        replace (j <? length used)%nat with true
          by (symmetry; apply Nat.ltb_lt; lia).
        simpl. apply perm_skip.
        rewrite (unused_from_ext rest (S j) used (set_true j used)); [ exact Hperm | ].
        intros k Hk. rewrite nth_set_true.
        replace (k =? j)%nat with false by (symmetry; apply Nat.eqb_neq; lia).
        reflexivity.
      * pose proof (scan_others_below _ _ _ _ _ _ _ _ E j (Nat.lt_succ_diag_r j)) as Hb.
        apply IH in E; [ | lia ]. destruct E as (added & -> & Hperm).
        exists added. split; [ reflexivity | ]. rewrite Hb, Hj.
        apply Permutation_sym, Permutation_cons_app, Permutation_sym, Hperm.
Qed.

(** The clusters opened by the outer loop hold exactly the unmarked lines. *)
Lemma scan_lines_partition (th : R) (lines : list Line) :
  forall i used,
    (i + length lines <= length used)%nat ->
    Permutation (flat_map members (scan_lines th lines i used))
                (unused_from lines i used).
Proof.
  induction lines as [ | line rest IH]; intros i used Hlen; simpl.
  - apply perm_nil.
  - simpl in Hlen. destruct (nth i used false) eqn:Hi.
    + apply IH. lia.
    + destruct (scan_others _ _ _ _ _ _) as [used' appended] eqn:E.
      pose proof (scan_others_spec _ _ _ _ _ _ _ _ E
                    ltac:(rewrite set_true_length; lia)) as (L & _).
      rewrite set_true_length in L.
      apply scan_others_partition in E; [ | rewrite set_true_length; lia ].
      destruct E as (added & E & Hperm). simpl in E. subst appended.
      simpl. unfold members at 1. simpl. apply perm_skip.
      eapply perm_trans.
      * apply Permutation_app_head. apply IH. lia.
      * rewrite (unused_from_ext rest (S i) used (set_true i used)); [ exact Hperm | ].
        intros k Hk. rewrite nth_set_true.
        replace (k =? i)%nat with false by (symmetry; apply Nat.eqb_neq; lia).
        reflexivity.
Qed.

Lemma clusters_partition (lines : list Line) (th : R) :
  Permutation (flat_map members (clusters lines th)) lines.
Proof.
  unfold clusters. eapply perm_trans.
  - apply scan_lines_partition. rewrite repeat_length. simpl. lia.
  - rewrite unused_from_repeat. apply sort_by_perm.
Qed.

(** The first cluster is opened by the first line of the sorted list, which
    is a longest line. *)
Lemma merge_similar_lines_head (lines : list Line) (th : R) :
  lines <> [] ->
  exists first rest,
    merge_similar_lines lines th = first :: rest
    /\ Py.sorted get_line_length true lines
       = first :: tl (Py.sorted get_line_length true lines)
    /\ forall l, In l lines -> get_line_length l <= get_line_length first.
Proof.
  intros Hne. rewrite merge_similar_lines_seeds. unfold clusters.
  pose proof (sorted_reverse_sorted get_line_length lines) as Hs.
  pose proof (sorted_In get_line_length true lines) as Hin.
  pose proof (sorted_length get_line_length true lines) as Hlen.
  destruct (sorted get_line_length true lines) as [ | first others].
  - destruct lines; [ congruence | discriminate ].
  - simpl scan_lines.
    destruct (scan_others _ _ _ _ _ _) as [used' appended]. simpl.
    eexists. eexists. split; [ reflexivity | ]. split; [ reflexivity | ].
    intros l Hl. apply Hin in Hl. inversion Hs as [ | ? ? _ Hall]; subst.
    destruct Hl as [<- | Hl]; [ lra | ].
    rewrite Forall_forall in Hall. now apply Hall.
Qed.

(** With a threshold above 90 the first line takes every other line. *)
Lemma clusters_single (lines : list Line) (th : R) :
  90 < th ->
  length (clusters lines th) = match lines with [] => 0%nat | _ => 1%nat end.
Proof.
  intros Hth. unfold clusters.
  pose proof (sorted_length get_line_length true lines) as Hlen.
  destruct (sorted get_line_length true lines) as [ | first others].
  - destruct lines; [ reflexivity | discriminate ].
  - destruct lines as [ | l0 ls]; [ discriminate | ].
    simpl scan_lines.
    destruct (scan_others _ _ _ _ _ _) as [used' appended] eqn:E.
    apply scan_others_spec in E;
      [ | simpl; rewrite ?set_true_length, ?repeat_length; simpl; lia ].
    destruct E as (_ & _ & _ & Rest).
    rewrite scan_lines_all_used; [ reflexivity | ].
    intros m Hm. destruct (nth_error others m) as [o | ] eqn:Ho.
    + destruct (nth (1 + m) used' false) eqn:Hu; [ reflexivity | ].
      specialize (Rest m o Ho Hu).
      pose proof (AngleFacts.angle_diff_lines first o). lra.
    + apply nth_error_None in Ho. lia.
Qed.

End ClusterFacts.

Module MergeResults.
Import Float FloatFacts Py PyFacts TriangleDetector Auxiliary MergeFacts ClusterFacts.

Lemma ForallOrdPairs_all {A : Type} (rel : A -> A -> Prop) (l : list A) :
  (forall a b, rel a b) -> ForallOrdPairs rel l.
Proof.
  intros H. induction l as [ | a l IH]; constructor.
  - apply Forall_forall. intros b _. apply H.
  - exact IH.
Qed.

Lemma map_fst_singletons (l : list Line) :
  map fst (map (fun x : Line => (x, @nil Line)) l) = l.
Proof. induction l as [ | a l IH]; simpl; [ reflexivity | now rewrite IH ]. Qed.

Lemma repeat_false_unmarked (n k : nat) : nth k (repeat false n) false = false.
Proof. revert k. induction n as [ | n IH]; intros [ | k]; simpl; auto. Qed.

(** Lines in decreasing order of length that are pairwise at least the
    threshold apart are returned as they are. *)
Lemma merge_similar_lines_fixed (lines : list Line) (th : R) :
  StronglySorted (fun a b => get_line_length b <= get_line_length a) lines ->
  ForallOrdPairs (fun a b => th <= angle_diff (get_line_angle a) (get_line_angle b))
                 lines ->
  merge_similar_lines lines th = lines.
Proof.
  intros Hsorted Hfar. rewrite merge_similar_lines_seeds. unfold clusters.
  rewrite (sorted_reverse_id lines Hsorted).
  rewrite scan_lines_no_merge.
  - apply map_fst_singletons.
  - exact Hfar.
  - intros m _. apply repeat_false_unmarked.
Qed.

Lemma merge_similar_lines_sorted (lines : list Line) (th : R) :
  StronglySorted (fun a b => get_line_length b <= get_line_length a)
                 (merge_similar_lines lines th).
Proof.
  rewrite merge_similar_lines_seeds. unfold clusters.
  apply scan_lines_seeds_sorted, sorted_reverse_sorted.
Qed.

Lemma merge_similar_lines_far (lines : list Line) (th : R) :
  ForallOrdPairs (fun a b => th <= angle_diff (get_line_angle a) (get_line_angle b))
                 (merge_similar_lines lines th).
Proof.
  rewrite merge_similar_lines_seeds. unfold clusters.
  apply (scan_lines_seeds th (sorted get_line_length true lines) 0
           (repeat false (length (sorted get_line_length true lines))) []).
  - rewrite repeat_length. simpl. lia.
  - intros m o _ _. constructor.
Qed.

Lemma merge_similar_lines_incl (lines : list Line) (th : R) :
  incl (merge_similar_lines lines th) lines.
Proof.
  rewrite merge_similar_lines_seeds. intros x Hx.
  apply in_map_iff in Hx. destruct Hx as (g & <- & Hg).
  unfold clusters in Hg. apply scan_lines_incl in Hg.
  apply (sorted_In get_line_length true lines). apply Hg. now left.
Qed.

End MergeResults.

(** X3: [merge_similar_lines] puts every input segment into exactly one
    cluster: the members of all clusters together are a rearrangement of the
    input list. *)
Theorem clusters_partition_input :
  forall (lines : list Line) (angle_thresh : R),
    Permutation (flat_map members (clusters lines angle_thresh)) lines.
Proof. exact ClusterFacts.clusters_partition. Qed.

(** X4: every segment returned by [merge_similar_lines] is one of the input
    segments, the result is in decreasing order of length, and for a
    non-empty input it starts with a longest input segment. *)
Theorem merge_similar_lines_selects :
  forall (lines : list Line) (angle_thresh : R),
    incl (merge_similar_lines lines angle_thresh) lines
    /\ StronglySorted (fun a b => get_line_length b <= get_line_length a)
                      (merge_similar_lines lines angle_thresh)
    /\ (lines <> [] ->
        exists first rest,
          merge_similar_lines lines angle_thresh = first :: rest
          /\ forall l, In l lines -> get_line_length l <= get_line_length first).
Proof.
  intros lines th. split; [ | split ].
  - apply MergeResults.merge_similar_lines_incl.
  - apply MergeResults.merge_similar_lines_sorted.
  - intros Hne.
    destruct (ClusterFacts.merge_similar_lines_head lines th Hne)
      as (first & rest & E & _ & Hmax).
    exists first, rest. split; assumption.
Qed.

Lemma merge_similar_lines_selects_witness :
  exists first rest,
    merge_similar_lines Scenarios.fan 50 = first :: rest
    /\ forall l, In l Scenarios.fan -> get_line_length l <= get_line_length first.
Proof.
  refine (proj2 (proj2 (merge_similar_lines_selects Scenarios.fan 50)) _).
  discriminate.
Defined.

(** X5: with a threshold that is not positive nothing is merged:
    [merge_similar_lines] returns all input segments, sorted by decreasing
    length. *)
Theorem merge_similar_lines_nonpositive_threshold :
  forall (lines : list Line) (angle_thresh : R),
    angle_thresh <= 0 ->
    merge_similar_lines lines angle_thresh = Py.sorted get_line_length true lines.
Proof.
  intros lines th Hth.
  rewrite MergeFacts.merge_similar_lines_seeds. unfold clusters.
  rewrite ClusterFacts.scan_lines_no_merge.
  - apply MergeResults.map_fst_singletons.
  - apply MergeResults.ForallOrdPairs_all. intros a b.
    pose proof (AngleFacts.angle_diff_lines a b). lra.
  - intros m _. apply MergeResults.repeat_false_unmarked.
Qed.

Lemma merge_similar_lines_nonpositive_threshold_witness :
  merge_similar_lines Scenarios.fan 0 = Py.sorted get_line_length true Scenarios.fan.
Proof.
  apply (merge_similar_lines_nonpositive_threshold Scenarios.fan 0). lra.
Defined.

(** X6: with a threshold above 90 degrees every orientation is similar to
    every other: a non-empty input is merged into a single segment, a longest
    one. *)
Theorem merge_similar_lines_large_threshold :
  forall (lines : list Line) (angle_thresh : R),
    90 < angle_thresh ->
    lines <> [] ->
    exists longest,
      merge_similar_lines lines angle_thresh = [longest]
      /\ In longest lines
      /\ forall l, In l lines -> get_line_length l <= get_line_length longest.
Proof.
  intros lines th Hth Hne.
  destruct (ClusterFacts.merge_similar_lines_head lines th Hne)
    as (first & rest & E & _ & Hmax).
  pose proof (ClusterFacts.clusters_single lines th Hth) as Hlen.
  assert (Hm : length (merge_similar_lines lines th) = 1%nat).
  { rewrite MergeFacts.merge_similar_lines_seeds, length_map.
    destruct lines; [ congruence | exact Hlen ]. }
  rewrite E in Hm. destruct rest; [ | discriminate ].
  exists first. split; [ exact E | ]. split; [ | exact Hmax ].
  apply (MergeResults.merge_similar_lines_incl lines th). rewrite E. now left.
Qed.

Lemma merge_similar_lines_large_threshold_witness :
  exists longest,
    merge_similar_lines Scenarios.fan 100 = [longest]
    /\ In longest Scenarios.fan
    /\ forall l, In l Scenarios.fan -> get_line_length l <= get_line_length longest.
Proof.
  apply (merge_similar_lines_large_threshold Scenarios.fan 100).
  - lra.
  - discriminate.
Defined.

(** X7: merging is idempotent: merging the result of [merge_similar_lines]
    again with the same threshold returns it unchanged. *)
Theorem merge_similar_lines_idempotent :
  forall (lines : list Line) (angle_thresh : R),
    merge_similar_lines (merge_similar_lines lines angle_thresh) angle_thresh
    = merge_similar_lines lines angle_thresh.
Proof.
  intros lines th. apply MergeResults.merge_similar_lines_fixed.
  - apply MergeResults.merge_similar_lines_sorted.
  - apply MergeResults.merge_similar_lines_far.
Qed.

(** ** Further facts about intersections and vertices *)

Module VertexFacts.
Import Float FloatFacts Py PyFacts TriangleDetector Auxiliary.
Import DetectorFacts MergeFacts.

(** Truncation moves a number by less than 1. *)
Lemma int_error (r : R) : Rabs (IZR (int r) - r) < 1.
Proof.
  unfold int. destruct (Rle_dec 0 r).
  - destruct (base_Int_part r) as [H1 H2].
    unfold Rabs. destruct (Rcase_abs _); lra.
  - destruct (base_Int_part (- r)) as [H1 H2]. rewrite opp_IZR.
    unfold Rabs. destruct (Rcase_abs _); lra.
Qed.

(** The point computed on lines 81-82, before truncation. *)
Lemma find_line_intersection_point (line1 line2 : Line) (p : Point) :
  find_line_intersection line1 line2 = Some p ->
  exists X Y : R,
    on_line line1 X Y /\ on_line line2 X Y /\ p = (int X, int Y).
Proof.
  destruct line1 as [[[x1 y1] x2] y2], line2 as [[[x3 y3] x4] y4].
  unfold find_line_intersection.
  set (d := denom _ _). set (n := ((x1 - x3) * (y3 - y4) - (y1 - y3) * (x3 - x4))%Z).
  cbv zeta. destruct (ltb (IZR (Z.abs d)) 1e-10) eqn:Hd; [ discriminate | ].
  apply ltb_false_iff in Hd. intros [= <-].
  assert (Hd0 : d <> 0%Z) by (intros E; rewrite E in Hd; simpl in Hd; lra).
  assert (Hd1 : IZR d <> 0) by now apply not_0_IZR.
  exists (IZR x1 + IZR n / IZR d * IZR (x2 - x1)),
         (IZR y1 + IZR n / IZR d * IZR (y2 - y1)).
  split; [ | split; [ | reflexivity ] ].
  - unfold on_line. ring.
  - unfold on_line.
    assert (Ed : IZR d = (IZR x1 - IZR x2) * (IZR y3 - IZR y4)
                         - (IZR y1 - IZR y2) * (IZR x3 - IZR x4)).
    { unfold d, denom. now rewrite minus_IZR, !mult_IZR, !minus_IZR. }
    assert (En : IZR n = (IZR x1 - IZR x3) * (IZR y3 - IZR y4)
                         - (IZR y1 - IZR y3) * (IZR x3 - IZR x4)).
    { unfold n. now rewrite minus_IZR, !mult_IZR, !minus_IZR. }
    rewrite !minus_IZR.
    apply Rmult_eq_reg_r with (IZR d); [ | exact Hd1 ].
    replace ((IZR x1 + IZR n / IZR d * (IZR x2 - IZR x1) - IZR x3)
             * (IZR y4 - IZR y3) * IZR d)
      with ((IZR x1 * IZR d + IZR n * (IZR x2 - IZR x1) - IZR x3 * IZR d)
            * (IZR y4 - IZR y3)) by (field; exact Hd1).
    replace ((IZR y1 + IZR n / IZR d * (IZR y2 - IZR y1) - IZR y3)
             * (IZR x4 - IZR x3) * IZR d)
      with ((IZR y1 * IZR d + IZR n * (IZR y2 - IZR y1) - IZR y3 * IZR d)
            * (IZR x4 - IZR x3)) by (field; exact Hd1).
    rewrite Ed, En. ring.
Qed.

(** Lines that [find_line_intersection] does not take for parallel have at
    most one point in common. *)
Lemma common_point_unique (line1 line2 : Line) (p : Point) :
  find_line_intersection line1 line2 = Some p ->
  forall X Y X' Y' : R,
    on_line line1 X Y -> on_line line2 X Y ->
    on_line line1 X' Y' -> on_line line2 X' Y' ->
    X' = X /\ Y' = Y.
Proof.
  destruct line1 as [[[x1 y1] x2] y2], line2 as [[[x3 y3] x4] y4].
  unfold find_line_intersection.
  set (d := denom _ _). cbv zeta.
  destruct (ltb (IZR (Z.abs d)) 1e-10) eqn:Hd; [ discriminate | ].
  apply ltb_false_iff in Hd. intros _.
  assert (Hd0 : d <> 0%Z) by (intros E; rewrite E in Hd; simpl in Hd; lra).
  assert (Hd1 : IZR d <> 0) by now apply not_0_IZR.
  assert (Ed : IZR d = (IZR x1 - IZR x2) * (IZR y3 - IZR y4)
                       - (IZR y1 - IZR y2) * (IZR x3 - IZR x4)).
  { unfold d, denom. now rewrite minus_IZR, !mult_IZR, !minus_IZR. }
  unfold on_line. rewrite !minus_IZR. intros X Y X' Y' H1 H2 H1' H2'.
  set (dx1 := IZR x2 - IZR x1) in *. set (dy1 := IZR y2 - IZR y1) in *.
  set (dx2 := IZR x4 - IZR x3) in *. set (dy2 := IZR y4 - IZR y3) in *.
  assert (Ed' : IZR d = dx1 * dy2 - dy1 * dx2) by (rewrite Ed; unfold dx1, dy1, dx2, dy2; ring).
  assert (A : (X' - X) * dy1 = (Y' - Y) * dx1).
  { replace ((X' - X) * dy1) with ((X' - IZR x1) * dy1 - (X - IZR x1) * dy1) by ring.
    rewrite H1, H1'. ring. }
  assert (B : (X' - X) * dy2 = (Y' - Y) * dx2).
  { replace ((X' - X) * dy2) with ((X' - IZR x3) * dy2 - (X - IZR x3) * dy2) by ring.
    rewrite H2, H2'. ring. }
  assert (EX : (X' - X) * IZR d = 0).
  { rewrite Ed'.
    replace ((X' - X) * (dx1 * dy2 - dy1 * dx2))
      with (dx1 * ((X' - X) * dy2) - dx2 * ((X' - X) * dy1)) by ring.
    rewrite A, B. ring. }
  assert (EY : (Y' - Y) * IZR d = 0).
  { rewrite Ed'.
    replace ((Y' - Y) * (dx1 * dy2 - dy1 * dx2))
      with (dy2 * ((Y' - Y) * dx1) - dy1 * ((Y' - Y) * dx2)) by ring.
    rewrite <- A, <- B. ring. }
  apply Rmult_integral in EX, EY.
  destruct EX as [EX | EX]; [ | contradiction ].
  destruct EY as [EY | EY]; [ | contradiction ].
  split; lra.
Qed.

(** Endpoints of the first segment that lie on the second line. *)
Lemma find_line_intersection_endpoint (x1 y1 x2 y2 : Z) (line2 : Line) :
  denom (x1, y1, x2, y2) line2 <> 0%Z ->
  (on_line line2 (IZR x1) (IZR y1) ->
   find_line_intersection (x1, y1, x2, y2) line2 = Some (x1, y1))
  /\ (on_line line2 (IZR x2) (IZR y2) ->
      find_line_intersection (x1, y1, x2, y2) line2 = Some (x2, y2)).
Proof.
  destruct line2 as [[[x3 y3] x4] y4]. intros Hd.
  rewrite Evaluation.find_line_intersection_quot.
  set (d := denom _ _) in *. cbv zeta.
  replace (d =? 0)%Z with false by (symmetry; now apply Z.eqb_neq).
  unfold on_line. rewrite <- !minus_IZR, <- !mult_IZR.
  split; intros H; apply eq_IZR in H.
  - replace ((x1 - x3) * (y3 - y4) - (y1 - y3) * (x3 - x4))%Z with 0%Z.
    2:{ transitivity (- ((x1 - x3) * (y4 - y3)) + (y1 - y3) * (x4 - x3))%Z;
        [ rewrite H | ]; ring. }
    rewrite !Z.mul_0_l, !Z.add_0_r, !Z.quot_mul by assumption. reflexivity.
  - replace ((x1 - x3) * (y3 - y4) - (y1 - y3) * (x3 - x4))%Z with d.
    2:{ unfold d, denom.
        transitivity ((x1 - x3) * (y3 - y4) - (y1 - y3) * (x3 - x4)
                      + ((x2 - x3) * (y4 - y3) - (y2 - y3) * (x4 - x3)))%Z;
        [ ring | rewrite H; ring ]. }
    replace (x1 * d + d * (x2 - x1))%Z with (x2 * d)%Z by ring.
    replace (y1 * d + d * (y2 - y1))%Z with (y2 * d)%Z by ring.
    rewrite !Z.quot_mul by assumption. reflexivity.
Qed.

Lemma combinations2_In {A : Type} (l : list A) (a b : A) :
  In (a, b) (combinations2 l) -> In a l /\ In b l.
Proof.
  induction l as [ | x xs IH]; simpl; [ tauto | ].
  intros H. apply in_app_or in H. destruct H as [H | H].
  - apply in_map_iff in H. destruct H as (y & [= <- <-] & Hy). tauto.
  - apply IH in H. tauto.
Qed.

Lemma combinations2_length {A : Type} (l : list A) :
  (2 * length (combinations2 l) = length l * (length l - 1))%nat.
Proof.
  induction l as [ | x xs IH]; simpl; [ reflexivity | ].
  rewrite length_app, length_map. nia.
Qed.

(** What line 138 lets through. *)
Lemma candidates_spec (merged : list Line) (img_shape : Shape) (c : Point * R) :
  In c (candidates merged img_shape) ->
  inside_margin img_shape (fst c)
  /\ snd c = dist_to_center (centroid merged) (fst c)
  /\ exists line1 line2,
      In line1 merged /\ In line2 merged
      /\ find_line_intersection line1 line2 = Some (fst c).
Proof.
  destruct img_shape as [height width]. unfold candidates, inside_margin.
  intros H. apply in_flat_map in H. destruct H as ([line1 line2] & Hpair & H).
  apply combinations2_In in Hpair. destruct Hpair as [H1 H2].
  apply firstn_In in H1. apply firstn_In in H2.
  destruct (find_line_intersection line1 line2) as [[x y] | ] eqn:E; [ | destruct H ].
  match type of H with
  | In _ (if ?b then _ else _) => destruct b eqn:Hb; [ | destruct H ]
  end.
  destruct H as [<- | []]. simpl.
  apply andb_prop in Hb. destruct Hb as [Hb Hy2].
  apply andb_prop in Hb. destruct Hb as [Hb Hy1].
  apply andb_prop in Hb. destruct Hb as [Hx1 Hx2].
  apply Z.leb_le in Hx1, Hx2, Hy1, Hy2.
  repeat split; try assumption.
  exists line1, line2. auto.
Qed.

Lemma candidates_length (merged : list Line) (img_shape : Shape) :
  (length (candidates merged img_shape) <= 45)%nat.
Proof.
  destruct img_shape as [height width]. unfold candidates.
  set (f := fun pair : Line * Line => _).
  assert (Hf : forall l, (length (flat_map f l) <= length l)%nat).
  { induction l as [ | [a b] l IH]; [ simpl; lia | ].
    change (flat_map f ((a, b) :: l)) with (f (a, b) ++ flat_map f l).
    rewrite length_app. cbn [length].
    assert (length (f (a, b)) <= 1)%nat; [ | lia ].
    unfold f. destruct (find_line_intersection a b) as [[x y] | ]; simpl; [ | lia ].
    match goal with |- context [if ?t then _ else _] => destruct t end; simpl; lia. }
  etransitivity; [ apply Hf | ].
  pose proof (combinations2_length (firstn 10 merged)) as Hc.
  pose proof (firstn_le_length 10 merged) as Hn.
  nia.
Qed.

(** The accepted points are ranked candidates, kept in their order. *)
Lemma dedup_fold_incl (tol : Z) (vertices : list (Point * R)) :
  forall (unique : list Point) (v : Point),
    In v (fold_left (fun unique (vd : Point * R) =>
                       let '(v, dist) := vd in
                       if is_dup tol unique v then unique else unique ++ [v])
                    vertices unique) ->
    In v unique \/ In v (map fst vertices).
Proof.
  induction vertices as [ | [w d] vs IH]; intros unique v H; simpl in *.
  - now left.
  - apply IH in H. destruct H as [H | H]; [ | tauto ].
    destruct (is_dup tol unique w); [ tauto | ].
    apply in_app_or in H. simpl in H. tauto.
Qed.

Lemma StronglySorted_remove {A : Type} (rel : A -> A -> Prop)
      (l1 l2 : list A) (x : A) :
  StronglySorted rel (l1 ++ x :: l2) -> StronglySorted rel (l1 ++ l2).
Proof.
  induction l1 as [ | a l1 IH]; simpl; intros H.
  - now inversion H.
  - inversion H as [ | ? ? Hs Hall]; subst. constructor; [ now apply IH | ].
    rewrite Forall_app in *. destruct Hall as [Ha Hb].
    split; [ assumption | now inversion Hb ].
Qed.

Lemma StronglySorted_firstn {A : Type} (rel : A -> A -> Prop)
      (n : nat) (l : list A) :
  StronglySorted rel l -> StronglySorted rel (firstn n l).
Proof.
  intros H. revert n. induction H as [ | a l Hs IH Hall]; intros [ | n]; simpl;
    try constructor.
  - apply IH.
  - apply Forall_forall. intros x Hx. rewrite Forall_forall in Hall.
    apply Hall. eapply firstn_In; eauto.
Qed.

Lemma dedup_fold_sorted (rel : Point -> Point -> Prop) (tol : Z)
      (vertices : list (Point * R)) :
  forall unique,
    StronglySorted rel (unique ++ map fst vertices) ->
    StronglySorted rel
      (fold_left (fun unique (vd : Point * R) =>
                    let '(v, dist) := vd in
                    if is_dup tol unique v then unique else unique ++ [v])
                 vertices unique).
Proof.
  induction vertices as [ | [w d] vs IH]; intros unique H; simpl in *.
  - now rewrite app_nil_r in H.
  - apply IH. destruct (is_dup tol unique w).
    + eapply StronglySorted_remove; eauto.
    + now rewrite <- app_assoc.
Qed.

Lemma dedup_fold_nonempty (tol : Z) (vertices : list (Point * R)) :
  forall unique,
    unique <> [] ->
    fold_left (fun unique (vd : Point * R) =>
                 let '(v, dist) := vd in
                 if is_dup tol unique v then unique else unique ++ [v])
              vertices unique <> [].
Proof.
  induction vertices as [ | [w d] vs IH]; intros unique H; simpl.
  - exact H.
  - apply IH. destruct (is_dup tol unique w); [ exact H | ].
    destruct unique; discriminate.
Qed.

Lemma dedup_nil_iff (tol : Z) (vertices : list (Point * R)) :
  dedup tol vertices = [] <-> vertices = [].
Proof.
  split; [ | now intros -> ].
  destruct vertices as [ | [w d] vs]; [ reflexivity | ].
  unfold dedup. simpl. intros H. exfalso. revert H.
  apply dedup_fold_nonempty. discriminate.
Qed.

Lemma ranked_perm (merged : list Line) (img_shape : Shape) :
  Permutation (ranked merged img_shape) (candidates merged img_shape).
Proof. apply sort_by_perm. Qed.

Lemma StronglySorted_keys (g : Point -> R) (l : list (Point * R)) :
  Forall (fun c => snd c = g (fst c)) l ->
  StronglySorted (fun c1 c2 : Point * R => snd c1 <= snd c2) l ->
  StronglySorted (fun p q => g p <= g q) (map fst l).
Proof.
  induction l as [ | c l IH]; intros Hkey Hs; simpl; constructor.
  - apply IH; [ now inversion Hkey | now inversion Hs ].
  - inversion Hkey as [ | ? ? Hc Hl]; subst.
    inversion Hs as [ | ? ? _ Hall]; subst.
    apply Forall_forall. intros p Hp. apply in_map_iff in Hp.
    destruct Hp as (c' & <- & Hc').
    rewrite Forall_forall in Hall, Hl.
    rewrite <- Hc, <- (Hl c' Hc'). now apply Hall.
Qed.

Lemma ranked_sorted (merged : list Line) (img_shape : Shape) :
  StronglySorted
    (fun p q => dist_to_center (centroid merged) p
                <= dist_to_center (centroid merged) q)
    (map fst (ranked merged img_shape)).
Proof.
  apply StronglySorted_keys.
  - apply Forall_forall. intros c Hc.
    apply (Permutation_in _ (ranked_perm merged img_shape)) in Hc.
    now apply candidates_spec in Hc.
  - apply (sorted_forward_sorted (@snd Point R)).
Qed.

Lemma merged_lines_incl (lines : list Line) (img_shape : Shape) :
  incl (merged_lines lines img_shape) (filter_border_lines lines img_shape).
Proof.
  unfold merged_lines. intros l Hl.
  apply MergeResults.merge_similar_lines_incl in Hl.
  apply firstn_In in Hl. now apply sorted_In in Hl.
Qed.

Lemma merged_lines_length (lines : list Line) (img_shape : Shape) :
  (length (merged_lines lines img_shape) <= 50)%nat
  /\ (length (merged_lines lines img_shape)
      <= length (filter_border_lines lines img_shape))%nat.
Proof.
  unfold merged_lines.
  pose proof (merge_similar_lines_length
                (firstn 50 (sorted get_line_length true
                              (filter_border_lines lines img_shape))) 15) as H.
  rewrite length_firstn, sorted_length in H. lia.
Qed.

(** Where a returned vertex comes from. *)
Lemma returned_vertex (lines : list Line) (img_shape : Shape) (out : Stdout)
      (v : Point) :
  In v (returned (find_triangle_vertices lines img_shape) out) ->
  inside_margin img_shape v
  /\ exists line1 line2,
      In line1 (filter_border_lines lines img_shape)
      /\ In line2 (filter_border_lines lines img_shape)
      /\ find_line_intersection line1 line2 = Some v.
Proof.
  rewrite find_triangle_vertices_returned.
  destruct (_ <? 3)%nat; [ intros [] | ].
  intros H. apply firstn_In in H. unfold dedup in H.
  apply dedup_fold_incl in H. destruct H as [[] | H].
  apply in_map_iff in H. destruct H as (c & <- & Hc).
  apply (Permutation_in _ (ranked_perm _ _)) in Hc.
  apply candidates_spec in Hc. destruct Hc as (Hin & _ & l1 & l2 & H1 & H2 & E).
  split; [ exact Hin | ].
  exists l1, l2. repeat split; try assumption; now apply merged_lines_incl.
Qed.

(** The first accepted point stays first. *)
Lemma dedup_fold_head (tol : Z) (vertices : list (Point * R)) :
  forall (v : Point) (unique : list Point),
    hd_error (fold_left (fun unique (vd : Point * R) =>
                           let '(v, dist) := vd in
                           if is_dup tol unique v then unique else unique ++ [v])
                        vertices (v :: unique)) = Some v.
Proof.
  induction vertices as [ | [w dw] vs IH]; intros v unique; cbn [fold_left].
  - reflexivity.
  - destruct (is_dup tol (v :: unique) w).
    + apply IH.
    + change ((v :: unique) ++ [w]) with (v :: (unique ++ [w])). apply IH.
Qed.

Lemma dedup_head (tol : Z) (v : Point) (d : R) (rest : list (Point * R)) :
  hd_error (firstn 3 (dedup tol ((v, d) :: rest))) = Some v.
Proof.
  unfold dedup. cbn [fold_left].
  replace (is_dup tol [] v) with false by reflexivity.
  pose proof (dedup_fold_head tol rest v []) as H.
  change ([] ++ [v]) with [v].
  destruct (fold_left _ rest [v]) as [ | v0 l0]; [ discriminate | exact H ].
Qed.

End VertexFacts.

(** X8: when [find_line_intersection] returns a pixel, the two infinite
    lines through the segments have exactly one real point in common, and
    the returned pixel is at most one pixel away from that point along each
    axis. *)
Theorem find_line_intersection_within_a_pixel :
  forall (line1 line2 : Line) (p : Point),
    find_line_intersection line1 line2 = Some p ->
    exists X Y : R,
      Auxiliary.on_line line1 X Y /\ Auxiliary.on_line line2 X Y
      /\ (forall X' Y' : R,
             Auxiliary.on_line line1 X' Y' -> Auxiliary.on_line line2 X' Y' ->
             X' = X /\ Y' = Y)
      /\ Rabs (IZR (fst p) - X) <= 1 /\ Rabs (IZR (snd p) - Y) <= 1.
Proof.
  intros line1 line2 p H.
  destruct (VertexFacts.find_line_intersection_point line1 line2 p H)
    as (X & Y & H1 & H2 & ->).
  exists X, Y. split; [ exact H1 | split; [ exact H2 | split ] ].
  - intros X' Y' H1' H2'.
    exact (VertexFacts.common_point_unique line1 line2 _ H X Y X' Y' H1 H2 H1' H2').
  - split; apply Rlt_le, VertexFacts.int_error.
Qed.

Lemma find_line_intersection_within_a_pixel_witness :
  exists X Y : R,
    Auxiliary.on_line Scenarios.inner_B X Y /\ Auxiliary.on_line Scenarios.inner_A X Y
    /\ (forall X' Y' : R,
           Auxiliary.on_line Scenarios.inner_B X' Y' ->
           Auxiliary.on_line Scenarios.inner_A X' Y' ->
           X' = X /\ Y' = Y)
    /\ Rabs (IZR (fst (100, 20)%Z) - X) <= 1 /\ Rabs (IZR (snd (100, 20)%Z) - Y) <= 1.
Proof.
  apply (find_line_intersection_within_a_pixel
           Scenarios.inner_B Scenarios.inner_A (100, 20)%Z).
  apply ScenarioFacts.inner_B_A.
Defined.

(** X9: if the two segments are not parallel and an endpoint of the first
    segment lies on the line through the second, [find_line_intersection]
    returns exactly that endpoint; so the corner shared by two edges is found
    without any truncation error. *)
Theorem find_line_intersection_at_endpoint :
  forall (x1 y1 x2 y2 : Z) (line2 : Line),
    denom (x1, y1, x2, y2) line2 <> 0%Z ->
    (Auxiliary.on_line line2 (IZR x1) (IZR y1) ->
     find_line_intersection (x1, y1, x2, y2) line2 = Some (x1, y1))
    /\ (Auxiliary.on_line line2 (IZR x2) (IZR y2) ->
        find_line_intersection (x1, y1, x2, y2) line2 = Some (x2, y2)).
Proof. exact VertexFacts.find_line_intersection_endpoint. Qed.

Lemma find_line_intersection_at_endpoint_witness :
  find_line_intersection (100, 20, 20, 100)%Z Scenarios.inner_A = Some (100, 20)%Z.
Proof.
  refine (proj1 (find_line_intersection_at_endpoint
                   100 20 20 100 Scenarios.inner_A _) _).
  - vm_compute. discriminate.
  - unfold Auxiliary.on_line, Scenarios.inner_A. simpl. lra.
Defined.

(** X10: every vertex returned by [find_triangle_vertices] lies at least
    twice the border margin inside the image, along both axes. *)
Theorem vertices_inside_margin :
  forall (lines : list Line) (height width : Z) (out : Stdout) (x y : Z),
    In (x, y) (returned (find_triangle_vertices lines (height, width)) out) ->
    let margin := (border_margin (height, width) * 2)%Z in
    (margin <= x <= width - margin)%Z /\ (margin <= y <= height - margin)%Z.
Proof.
  intros lines height width out x y H.
  apply VertexFacts.returned_vertex in H. exact (proj1 H).
Qed.

Lemma vertices_inside_margin_witness :
  (border_margin (120, 120) * 2 <= 20 <= 120 - border_margin (120, 120) * 2)%Z
  /\ (border_margin (120, 120) * 2 <= 100 <= 120 - border_margin (120, 120) * 2)%Z.
Proof.
  apply (vertices_inside_margin Scenarios.inner_triangle 120 120 [] 20 100).
  fold Scenarios.frame. rewrite ScenarioFacts.inner_triangle_vertices.
  right. right. now left.
Defined.

(** X11: every vertex returned by [find_triangle_vertices] is the
    intersection, as computed by [find_line_intersection], of two input
    segments that the border filter kept. *)
Theorem vertices_are_intersections :
  forall (lines : list Line) (img_shape : Shape) (out : Stdout) (v : Point),
    In v (returned (find_triangle_vertices lines img_shape) out) ->
    exists line1 line2,
      In line1 lines /\ In line2 lines
      /\ near_border img_shape line1 = false
      /\ near_border img_shape line2 = false
      /\ find_line_intersection line1 line2 = Some v.
Proof.
  intros lines img_shape out v H.
  apply VertexFacts.returned_vertex in H.
  destruct H as (_ & l1 & l2 & H1 & H2 & E).
  unfold filter_border_lines in H1, H2.
  apply filter_In in H1, H2. destruct H1 as [H1 N1], H2 as [H2 N2].
  apply negb_true_iff in N1, N2.
  exists l1, l2. repeat split; assumption.
Qed.

Lemma vertices_are_intersections_witness :
  exists line1 line2,
    In line1 Scenarios.inner_triangle /\ In line2 Scenarios.inner_triangle
    /\ near_border Scenarios.frame line1 = false
    /\ near_border Scenarios.frame line2 = false
    /\ find_line_intersection line1 line2 = Some (20, 20)%Z.
Proof.
  apply (vertices_are_intersections Scenarios.inner_triangle Scenarios.frame []).
  rewrite ScenarioFacts.inner_triangle_vertices. now left.
Defined.

(** X12: the vertices are returned closest first: along the returned list
    the distance to the centroid of the merged lines never decreases. *)
Theorem vertices_closest_first :
  forall (lines : list Line) (img_shape : Shape) (out : Stdout),
    let c := centroid (merged_lines lines img_shape) in
    StronglySorted (fun p q => dist_to_center c p <= dist_to_center c q)
                   (returned (find_triangle_vertices lines img_shape) out).
Proof.
  intros lines img_shape out c.
  rewrite DetectorFacts.find_triangle_vertices_returned.
  destruct (_ <? 3)%nat; [ constructor | ].
  apply VertexFacts.StronglySorted_firstn. unfold dedup.
  apply VertexFacts.dedup_fold_sorted. simpl.
  apply VertexFacts.ranked_sorted.
Qed.

(** X13: [find_triangle_vertices] returns no vertex exactly when fewer than
    3 merged lines remain or no pair of the first 10 merged lines intersects
    inside the margins; otherwise the candidate closest to the centroid is
    always returned. *)
Theorem no_vertex_iff :
  forall (lines : list Line) (img_shape : Shape) (out : Stdout),
    let merged := merged_lines lines img_shape in
    (returned (find_triangle_vertices lines img_shape) out = []
     <-> (length merged < 3)%nat \/ candidates merged img_shape = [])
    /\ ((3 <= length merged)%nat ->
        forall c rest, ranked merged img_shape = c :: rest ->
          hd_error (returned (find_triangle_vertices lines img_shape) out)
          = Some (fst c)).
Proof.
  intros lines img_shape out merged.
  rewrite DetectorFacts.find_triangle_vertices_returned. fold merged.
  assert (Hr : ranked merged img_shape = [] <-> candidates merged img_shape = []).
  { pose proof (Permutation_length (VertexFacts.ranked_perm merged img_shape)) as L.
    split; intros E; rewrite E in L;
      [ destruct (candidates merged img_shape) | destruct (ranked merged img_shape) ];
      simpl in L; congruence. }
  split.
  - destruct (Nat.ltb_spec (length merged) 3) as [Hlt | Hge].
    + split; [ now left | reflexivity ].
    + split.
      * intros H. right. apply Hr. apply (VertexFacts.dedup_nil_iff (tolerance img_shape)).
        destruct (dedup _ _); [ reflexivity | discriminate ].
      * intros [H | H]; [ lia | ]. apply Hr in H. now rewrite H.
  - intros Hge c rest E.
    replace (length merged <? 3)%nat with false
      by (symmetry; apply Nat.ltb_ge; exact Hge).
    rewrite E. destruct c as [v d]. apply VertexFacts.dedup_head.
Qed.

Lemma no_vertex_iff_witness :
  hd_error (returned (find_triangle_vertices Scenarios.inner_triangle Scenarios.frame) [])
  = Some (20, 20)%Z.
Proof.
  refine (proj2 (no_vertex_iff Scenarios.inner_triangle Scenarios.frame []) _
                ((20, 20)%Z, _) _ _).
  - rewrite ScenarioFacts.inner_triangle_merged. simpl. lia.
  - rewrite ScenarioFacts.inner_triangle_merged.
    rewrite ScenarioFacts.inner_triangle_ranked. reflexivity.
Defined.

(** X14: whatever the number of input segments, at most 50 segments are
    merged, at most 50 merged lines come out, and at most 45 candidate
    intersections are ranked. *)
Theorem work_is_bounded :
  forall (lines : list Line) (img_shape : Shape),
    (length (merged_lines lines img_shape) <= 50)%nat
    /\ (length (merged_lines lines img_shape)
        <= length (filter_border_lines lines img_shape) <= length lines)%nat
    /\ (length (ranked (merged_lines lines img_shape) img_shape) <= 45)%nat.
Proof.
  intros lines img_shape.
  destruct (VertexFacts.merged_lines_length lines img_shape) as [H50 Hf].
  repeat split; try assumption.
  - unfold filter_border_lines. apply filter_length_le.
  - rewrite (Permutation_length (VertexFacts.ranked_perm _ _)).
    apply VertexFacts.candidates_length.
Qed.

(** X15: when fewer than 3 segments survive the border filter, in particular
    when every input segment has both endpoints near the border,
    [find_triangle_vertices] returns no vertex. *)
Theorem border_lines_give_no_vertex :
  forall (lines : list Line) (img_shape : Shape) (out : Stdout),
    ((length (filter_border_lines lines img_shape) < 3)%nat ->
     returned (find_triangle_vertices lines img_shape) out = [])
    /\ ((forall line, In line lines -> near_border img_shape line = true) ->
        returned (find_triangle_vertices lines img_shape) out = []).
Proof.
  intros lines img_shape out.
  assert (Few : (length (filter_border_lines lines img_shape) < 3)%nat ->
                returned (find_triangle_vertices lines img_shape) out = []).
  { intros H. rewrite DetectorFacts.find_triangle_vertices_returned.
    destruct (VertexFacts.merged_lines_length lines img_shape) as [_ Hf].
    replace (_ <? 3)%nat with true; [ reflexivity | ].
    symmetry. apply Nat.ltb_lt. lia. }
  split; [ exact Few | ].
  intros Hall. apply Few.
  assert (Hnil : forall ls,
             (forall line, In line ls -> near_border img_shape line = true) ->
             filter_border_lines ls img_shape = []).
  { unfold filter_border_lines.
    induction ls as [ | l ls IH]; intros Hls; simpl; [ reflexivity | ].
    rewrite (Hls l) by now left. simpl.
    apply IH. intros line Hl. apply Hls. now right. }
  rewrite (Hnil lines Hall). simpl. lia.
Qed.

Lemma border_lines_give_no_vertex_witness :
  returned (find_triangle_vertices Scenarios.edge_triangle Scenarios.frame) [] = [].
Proof.
  refine (proj1 (border_lines_give_no_vertex
                   Scenarios.edge_triangle Scenarios.frame []) _).
  rewrite ScenarioFacts.edge_triangle_filtered. simpl. lia.
Defined.

(** ** Facts about the frequency masks *)

Module FilterFacts.
Import Filters.

Lemma leb_true_iff (a b : R) : leb a b = true <-> a <= b.
Proof.
  unfold leb. destruct (Rle_dec a b); split; intros; try discriminate; tauto.
Qed.

(** The test of line 31 in integer arithmetic. *)
Lemma leb_sqrt (n radius : Z) :
  (0 <= n)%Z ->
  leb (sqrt (IZR n)) (IZR radius) = ((0 <=? radius) && (n <=? radius * radius))%Z.
Proof.
  intros Hn. assert (Hn' : 0 <= IZR n) by now apply IZR_le.
  pose proof (sqrt_pos (IZR n)) as Hpos.
  destruct (Z.leb_spec 0 radius) as [Hr | Hr]; simpl.
  - assert (Hr' : 0 <= IZR radius) by now apply IZR_le.
    destruct (Z.leb_spec n (radius * radius)) as [H | H].
    + apply leb_true_iff.
      rewrite <- (sqrt_square (IZR radius)) by assumption.
      apply sqrt_le_1_alt. rewrite <- mult_IZR. now apply IZR_le.
    + destruct (leb _ _) eqn:E; [ | reflexivity ].
      apply leb_true_iff in E. exfalso.
      assert (IZR n <= IZR radius * IZR radius).
      { rewrite <- (sqrt_sqrt (IZR n)) by assumption. nra. }
      rewrite <- mult_IZR in *. apply le_IZR in H0. lia.
  - destruct (leb _ _) eqn:E; [ | reflexivity ].
    apply leb_true_iff in E. apply IZR_lt in Hr. lra.
Qed.

Lemma arange_length (n : Z) : length (arange n) = Z.to_nat n.
Proof. unfold arange. now rewrite length_map, length_seq. Qed.

Lemma nth_arange (n : Z) (i : nat) (d : Z) :
  (i < Z.to_nat n)%nat -> nth i (arange n) d = Z.of_nat i.
Proof.
  intros H. unfold arange.
  rewrite (nth_indep _ d (Z.of_nat 0)) by now rewrite length_map, length_seq.
  rewrite map_nth, seq_nth by assumption. reflexivity.
Qed.

Lemma tabulate_shape {A : Type} (rows cols : Z) (f : Z -> Z -> A) :
  has_shape (Z.to_nat rows) (Z.to_nat cols) (tabulate rows cols f).
Proof.
  unfold has_shape, tabulate. split.
  - now rewrite length_map, arange_length.
  - apply Forall_forall. intros row Hrow. apply in_map_iff in Hrow.
    destruct Hrow as (y & <- & _). now rewrite length_map, arange_length.
Qed.

Lemma nth_map_in_range {A B : Type} (f : A -> B) (l : list A) (i : nat)
      (da : A) (db : B) :
  (i < length l)%nat -> nth i (map f l) db = f (nth i l da).
Proof.
  revert i. induction l as [ | a l IH]; intros [ | i] H; simpl in *; try lia.
  - reflexivity.
  - apply IH. lia.
Qed.

Lemma pixel_tabulate {A : Type} (rows cols : Z) (f : Z -> Z -> A)
      (y x : nat) (d : A) :
  (y < Z.to_nat rows)%nat -> (x < Z.to_nat cols)%nat ->
  pixel (tabulate rows cols f) y x d = f (Z.of_nat y) (Z.of_nat x).
Proof.
  intros Hy Hx. unfold pixel, tabulate.
  rewrite (nth_map_in_range _ _ y 0%Z) by now rewrite arange_length.
  rewrite (nth_map_in_range _ _ x 0%Z) by now rewrite arange_length.
  now rewrite !nth_arange.
Qed.

Lemma map_tabulate {A B : Type} (g : A -> B) (rows cols : Z) (f : Z -> Z -> A) :
  map (map g) (tabulate rows cols f) = tabulate rows cols (fun y x => g (f y x)).
Proof.
  unfold tabulate. rewrite map_map. apply map_ext. intros y. apply map_map.
Qed.

Lemma map2_map_same {A B C D : Type} (h : B -> C -> D) (f : A -> B) (g : A -> C)
      (l : list A) :
  map2 h (map f l) (map g l) = map (fun a => h (f a) (g a)) l.
Proof.
  unfold map2. induction l as [ | a l IH]; simpl; [ reflexivity | now rewrite IH ].
Qed.

Lemma map2_tabulate {A B C : Type} (h : A -> B -> C) (rows cols : Z)
      (f : Z -> Z -> A) (g : Z -> Z -> B) :
  map2 (map2 h) (tabulate rows cols f) (tabulate rows cols g)
  = tabulate rows cols (fun y x => h (f y x) (g y x)).
Proof.
  unfold tabulate. rewrite map2_map_same. apply map_ext. intros y.
  apply map2_map_same.
Qed.

Lemma map2_map_r {A B C D : Type} (h : A -> C -> D) (k : B -> C)
      (a : list A) (b : list B) :
  map2 h a (map k b) = map2 (fun x y => h x (k y)) a b.
Proof.
  unfold map2. revert b. induction a as [ | x a IH]; intros [ | y b]; simpl;
    try reflexivity.
  now rewrite IH.
Qed.

Lemma map2_ext {A B C : Type} (h h' : A -> B -> C) (a : list A) (b : list B) :
  (forall x y, h x y = h' x y) -> map2 h a b = map2 h' a b.
Proof. intros H. unfold map2. apply map_ext. intros [x y]. apply H. Qed.

Lemma map2_assoc {A B : Type} (g : A -> B -> A) (h : B -> B -> B)
      (f : list A) (a b : list B) :
  (forall x u v, g (g x u) v = g x (h u v)) ->
  map2 g (map2 g f a) b = map2 g f (map2 h a b).
Proof.
  intros H. unfold map2. revert a b.
  induction f as [ | x f IH]; intros [ | u a] [ | v b]; simpl; try reflexivity.
  now rewrite H, IH.
Qed.

Lemma map2_diag {A : Type} (h : A -> A -> A) (l : list A) :
  Forall (fun a => h a a = a) l -> map2 h l l = l.
Proof.
  unfold map2. induction 1 as [ | a l Ha _ IH]; simpl; [ reflexivity | ].
  now rewrite Ha, IH.
Qed.

Lemma nth_map2 {A B C : Type} (h : A -> B -> C) (a : list A) (b : list B)
      (i : nat) (da : A) (db : B) (dc : C) :
  (i < length a)%nat -> (i < length b)%nat ->
  nth i (map2 h a b) dc = h (nth i a da) (nth i b db).
Proof.
  unfold map2. revert b i.
  induction a as [ | x a IH]; intros [ | y b] [ | i] Ha Hb; simpl in *; try lia.
  - reflexivity.
  - apply IH; lia.
Qed.

Lemma apply_filter_scale (f : Spectrum) (mask : Mask) :
  apply_filter f mask = map2 (map2 scale) f mask.
Proof.
  unfold apply_filter. rewrite map2_map_r. apply map2_ext.
  intros row mrow. rewrite map2_map_r. reflexivity.
Qed.

Lemma pixel_apply_filter (f : Spectrum) (mask : Mask) (rows cols y x : nat) :
  has_shape rows cols f -> has_shape rows cols mask ->
  (y < rows)%nat -> (x < cols)%nat ->
  pixel (apply_filter f mask) y x (0, 0)
  = scale (pixel f y x (0, 0)) (pixel mask y x 0).
Proof.
  intros [Hf Hfr] [Hm Hmr] Hy Hx. rewrite apply_filter_scale. unfold pixel.
  rewrite (nth_map2 _ f mask y [] []) by lia.
  rewrite Forall_forall in Hfr, Hmr.
  apply nth_map2.
  - rewrite (Hfr (nth y f [])); [ lia | apply nth_In; lia ].
  - rewrite (Hmr (nth y mask [])); [ lia | apply nth_In; lia ].
Qed.

(** The three masks as tables. *)
Lemma high_pass_table (rows cols radius : Z) :
  create_high_pass_mask (rows, cols) radius
  = tabulate rows cols
      (fun y x => 1 - (if leb (distance (rows, cols) y x) (IZR radius)
                       then 1 else 0)).
Proof. unfold create_high_pass_mask, create_low_pass_mask. apply map_tabulate. Qed.

Lemma band_pass_table (rows cols radius_low radius_high : Z) :
  create_band_pass_mask (rows, cols) radius_low radius_high
  = tabulate rows cols
      (fun y x =>
         (if leb (distance (rows, cols) y x) (IZR radius_high) then 1 else 0)
         * (1 - (if leb (distance (rows, cols) y x) (IZR radius_low)
                 then 1 else 0))).
Proof.
  unfold create_band_pass_mask. rewrite high_pass_table.
  unfold create_low_pass_mask. apply map2_tabulate.
Qed.

Lemma tabulate_binary (rows cols : Z) (f : Z -> Z -> R) :
  (forall y x, f y x = 0 \/ f y x = 1) -> binary (tabulate rows cols f).
Proof.
  intros H. unfold binary, tabulate.
  apply Forall_forall. intros row Hrow. apply in_map_iff in Hrow.
  destruct Hrow as (y & <- & _).
  apply Forall_forall. intros m Hm. apply in_map_iff in Hm.
  destruct Hm as (x & <- & _). apply H.
Qed.

Lemma masks_binary (rows cols : Z) (r1 r2 : Z) :
  binary (create_low_pass_mask (rows, cols) r1)
  /\ binary (create_high_pass_mask (rows, cols) r1)
  /\ binary (create_band_pass_mask (rows, cols) r1 r2).
Proof.
  rewrite high_pass_table, band_pass_table. unfold create_low_pass_mask.
  repeat split; apply tabulate_binary; intros y x;
    repeat match goal with |- context [if ?b then _ else _] => destruct b end;
    lra.
Qed.

Lemma apply_filter_twice (f : Spectrum) (m1 m2 : Mask) :
  apply_filter (apply_filter f m1) m2 = apply_filter f (map2 (map2 Rmult) m1 m2).
Proof.
  rewrite !apply_filter_scale. apply map2_assoc.
  intros row u v. apply map2_assoc.
  intros [re im] a b. unfold scale. simpl. f_equal; ring.
Qed.

Lemma binary_square (mask : Mask) :
  binary mask -> map2 (map2 Rmult) mask mask = mask.
Proof.
  intros H. apply map2_diag.
  eapply Forall_impl; [ | exact H ]. intros row Hrow. apply map2_diag.
  eapply Forall_impl; [ | exact Hrow ]. intros m [-> | ->]; lra.
Qed.

End FilterFacts.

Module MaskFacts.
Import Filters FilterFacts.

(** The squared distance of the pixel [(x, y)] from the centre. *)
Lemma distance_square (rows cols y x : Z) :
  distance (rows, cols) y x
  = sqrt (IZR ((x - cols / 2) ^ 2 + (y - rows / 2) ^ 2)).
Proof. reflexivity. Qed.

Lemma inside_circle (rows cols y x radius : Z) :
  leb (distance (rows, cols) y x) (IZR radius)
  = ((0 <=? radius)
     && ((x - cols / 2) ^ 2 + (y - rows / 2) ^ 2 <=? radius * radius))%Z.
Proof. rewrite distance_square. apply leb_sqrt. nia. Qed.

Lemma pixel_low_pass (rows cols radius : Z) (y x : nat) :
  (y < Z.to_nat rows)%nat -> (x < Z.to_nat cols)%nat ->
  pixel (create_low_pass_mask (rows, cols) radius) y x 0
  = if ((0 <=? radius)
        && ((Z.of_nat x - cols / 2) ^ 2 + (Z.of_nat y - rows / 2) ^ 2
            <=? radius * radius))%Z
    then 1 else 0.
Proof.
  intros Hy Hx. unfold create_low_pass_mask.
  rewrite pixel_tabulate by assumption. now rewrite inside_circle.
Qed.

Lemma pixel_high_pass (rows cols radius : Z) (y x : nat) :
  (y < Z.to_nat rows)%nat -> (x < Z.to_nat cols)%nat ->
  pixel (create_high_pass_mask (rows, cols) radius) y x 0
  = 1 - pixel (create_low_pass_mask (rows, cols) radius) y x 0.
Proof.
  intros Hy Hx. rewrite high_pass_table. unfold create_low_pass_mask.
  now rewrite !pixel_tabulate by assumption.
Qed.

Lemma pixel_band_pass (rows cols radius_low radius_high : Z) (y x : nat) :
  (y < Z.to_nat rows)%nat -> (x < Z.to_nat cols)%nat ->
  pixel (create_band_pass_mask (rows, cols) radius_low radius_high) y x 0
  = pixel (create_low_pass_mask (rows, cols) radius_high) y x 0
    * pixel (create_high_pass_mask (rows, cols) radius_low) y x 0.
Proof.
  intros Hy Hx. rewrite band_pass_table, high_pass_table.
  unfold create_low_pass_mask. now rewrite !pixel_tabulate by assumption.
Qed.

Lemma masks_shape (rows cols r1 r2 : Z) :
  has_shape (Z.to_nat rows) (Z.to_nat cols) (create_low_pass_mask (rows, cols) r1)
  /\ has_shape (Z.to_nat rows) (Z.to_nat cols)
               (create_high_pass_mask (rows, cols) r1)
  /\ has_shape (Z.to_nat rows) (Z.to_nat cols)
               (create_band_pass_mask (rows, cols) r1 r2).
Proof.
  rewrite high_pass_table, band_pass_table. unfold create_low_pass_mask.
  repeat split; apply tabulate_shape.
Qed.

End MaskFacts.

(** ** Properties of the frequency masks *)

(** X16: the low-pass mask has the requested shape, and its entry [y][x] is
    1 when the radius is not negative and the squared distance of [(x, y)]
    from the centre [(cols // 2, rows // 2)] is at most the squared radius,
    and 0 otherwise; a negative radius gives a mask of zeros. *)
Theorem low_pass_mask_entries :
  forall (rows cols radius : Z) (y x : nat),
    Filters.has_shape (Z.to_nat rows) (Z.to_nat cols)
                      (Filters.create_low_pass_mask (rows, cols) radius)
    /\ ((y < Z.to_nat rows)%nat -> (x < Z.to_nat cols)%nat ->
        Filters.pixel (Filters.create_low_pass_mask (rows, cols) radius) y x 0
        = if ((0 <=? radius)
              && ((Z.of_nat x - cols / 2) ^ 2 + (Z.of_nat y - rows / 2) ^ 2
                  <=? radius * radius))%Z
          then 1 else 0).
Proof.
  intros rows cols radius y x. split.
  - apply (MaskFacts.masks_shape rows cols radius 0).
  - apply MaskFacts.pixel_low_pass.
Qed.

Lemma low_pass_mask_entries_witness :
  Filters.pixel (Filters.create_low_pass_mask (4, 4)%Z 1) 2 3 0
  = if ((0 <=? 1) && ((Z.of_nat 3 - 4 / 2) ^ 2 + (Z.of_nat 2 - 4 / 2) ^ 2 <=? 1 * 1))%Z
    then 1 else 0.
Proof.
  apply (proj2 (low_pass_mask_entries 4 4 1 2 3)); vm_compute; lia.
Defined.

(** X17: the high-pass mask is the complement of the low-pass mask of the
    same radius, and the band-pass mask is 1 exactly on the ring of the
    pixels that lie inside the circle of radius [radius_high] and outside
    the circle of radius [radius_low]; both have the requested shape. *)
Theorem high_and_band_pass_mask_entries :
  forall (rows cols radius_low radius_high : Z) (y x : nat),
    let d2 := ((Z.of_nat x - cols / 2) ^ 2 + (Z.of_nat y - rows / 2) ^ 2)%Z in
    let inside r := ((0 <=? r) && (d2 <=? r * r))%Z in
    Filters.has_shape (Z.to_nat rows) (Z.to_nat cols)
                      (Filters.create_high_pass_mask (rows, cols) radius_low)
    /\ Filters.has_shape (Z.to_nat rows) (Z.to_nat cols)
         (Filters.create_band_pass_mask (rows, cols) radius_low radius_high)
    /\ ((y < Z.to_nat rows)%nat -> (x < Z.to_nat cols)%nat ->
        Filters.pixel (Filters.create_high_pass_mask (rows, cols) radius_low) y x 0
        = (if inside radius_low then 0 else 1)
        /\ Filters.pixel
             (Filters.create_band_pass_mask (rows, cols) radius_low radius_high)
             y x 0
           = (if inside radius_high && negb (inside radius_low) then 1 else 0)).
Proof.
  intros rows cols rl rh y x d2 inside.
  destruct (MaskFacts.masks_shape rows cols rl rh) as (_ & Hh & Hb).
  split; [ exact Hh | split; [ exact Hb | ] ].
  intros Hy Hx.
  rewrite MaskFacts.pixel_band_pass, !MaskFacts.pixel_high_pass,
    !MaskFacts.pixel_low_pass by assumption.
  fold d2. fold (inside rl). fold (inside rh).
  destruct (inside rl), (inside rh); simpl; split; lra.
Qed.

Lemma high_and_band_pass_mask_entries_witness :
  Filters.pixel (Filters.create_high_pass_mask (4, 4)%Z 1) 0 0 0 = 1
  /\ Filters.pixel (Filters.create_band_pass_mask (4, 4)%Z 1 3) 0 0 0 = 1.
Proof.
  apply (proj2 (proj2 (high_and_band_pass_mask_entries 4 4 1 3 0 0)));
    vm_compute; lia.
Defined.

(** X18: for a non-empty image and a radius that is not negative, the
    coefficient at the centre [(rows // 2, cols // 2)], where the shifted
    spectrum has its zero frequency, passes the low-pass mask and is blocked
    by the high-pass mask and by every band-pass mask with that inner
    radius. *)
Theorem centre_passes_low_only :
  forall (rows cols radius radius_high : Z),
    (0 < rows)%Z -> (0 < cols)%Z -> (0 <= radius)%Z ->
    let y := Z.to_nat (rows / 2) in
    let x := Z.to_nat (cols / 2) in
    Filters.pixel (Filters.create_low_pass_mask (rows, cols) radius) y x 0 = 1
    /\ Filters.pixel (Filters.create_high_pass_mask (rows, cols) radius) y x 0 = 0
    /\ Filters.pixel
         (Filters.create_band_pass_mask (rows, cols) radius radius_high) y x 0 = 0.
Proof.
  intros rows cols radius rh Hrows Hcols Hr y x.
  assert (Hy : (y < Z.to_nat rows)%nat).
  { unfold y. apply Z2Nat.inj_lt; try lia.
    - apply Z.div_pos; lia.
    - apply Z.div_lt; lia. }
  assert (Hx : (x < Z.to_nat cols)%nat).
  { unfold x. apply Z2Nat.inj_lt; try lia.
    - apply Z.div_pos; lia.
    - apply Z.div_lt; lia. }
  assert (Hlow : Filters.pixel (Filters.create_low_pass_mask (rows, cols) radius)
                               y x 0 = 1).
  { rewrite MaskFacts.pixel_low_pass by assumption.
    unfold x, y. rewrite !Z2Nat.id by (apply Z.div_pos; lia).
    replace ((cols / 2 - cols / 2) ^ 2 + (rows / 2 - rows / 2) ^ 2)%Z with 0%Z
      by ring.
    replace (0 <=? radius)%Z with true by (symmetry; apply Z.leb_le; lia).
    replace (0 <=? radius * radius)%Z with true
      by (symmetry; apply Z.leb_le; nia).
    reflexivity. }
  rewrite MaskFacts.pixel_band_pass, MaskFacts.pixel_high_pass by assumption.
  rewrite Hlow. repeat split; lra.
Qed.

Lemma centre_passes_low_only_witness :
  Filters.pixel (Filters.create_low_pass_mask (4, 6)%Z 0) 2 3 0 = 1
  /\ Filters.pixel (Filters.create_high_pass_mask (4, 6)%Z 0) 2 3 0 = 0
  /\ Filters.pixel (Filters.create_band_pass_mask (4, 6)%Z 0 2) 2 3 0 = 0.
Proof.
  apply (centre_passes_low_only 4 6 0 2); lia.
Defined.

(** X19: the low-pass and the high-pass filter of the same radius split the
    spectrum: each coefficient is kept unchanged by one of them and set to
    zero by the other. *)
Theorem low_and_high_pass_split_spectrum :
  forall (rows cols radius : Z) (fft_shifted : Filters.Spectrum) (y x : nat),
    Filters.has_shape (Z.to_nat rows) (Z.to_nat cols) fft_shifted ->
    (y < Z.to_nat rows)%nat -> (x < Z.to_nat cols)%nat ->
    let low := Filters.apply_filter fft_shifted
                 (Filters.create_low_pass_mask (rows, cols) radius) in
    let high := Filters.apply_filter fft_shifted
                  (Filters.create_high_pass_mask (rows, cols) radius) in
    let c := Filters.pixel fft_shifted y x (0, 0) in
    (Filters.pixel low y x (0, 0) = c /\ Filters.pixel high y x (0, 0) = (0, 0))
    \/ (Filters.pixel low y x (0, 0) = (0, 0) /\ Filters.pixel high y x (0, 0) = c).
Proof.
  intros rows cols radius f y x Hf Hy Hx low high c.
  destruct (MaskFacts.masks_shape rows cols radius 0) as (Hl & Hh & _).
  unfold low, high.
  rewrite (FilterFacts.pixel_apply_filter f _ _ _ y x Hf Hl Hy Hx).
  rewrite (FilterFacts.pixel_apply_filter f _ _ _ y x Hf Hh Hy Hx).
  rewrite MaskFacts.pixel_high_pass, MaskFacts.pixel_low_pass by assumption.
  fold c. destruct c as [re im]. unfold Filters.scale. simpl.
  destruct (_ && _)%bool; [ left | right ]; split; f_equal; ring.
Qed.

Lemma low_and_high_pass_split_spectrum_witness :
  let f : Filters.Spectrum := [[(1, 2); (3, 4)]; [(5, 6); (7, 8)]] in
  let low := Filters.apply_filter f (Filters.create_low_pass_mask (2, 2)%Z 0) in
  let high := Filters.apply_filter f (Filters.create_high_pass_mask (2, 2)%Z 0) in
  (Filters.pixel low 0 0 (0, 0) = (1, 2) /\ Filters.pixel high 0 0 (0, 0) = (0, 0))
  \/ (Filters.pixel low 0 0 (0, 0) = (0, 0) /\ Filters.pixel high 0 0 (0, 0) = (1, 2)).
Proof.
  apply (low_and_high_pass_split_spectrum
           2 2 0 [[(1, 2); (3, 4)]; [(5, 6); (7, 8)]] 0 0).
  - split; [ reflexivity | repeat constructor ].
  - vm_compute. lia.
  - vm_compute. lia.
Defined.

(** X20: filtering with the band-pass mask is the same as filtering with the
    low-pass mask of the outer radius and then with the high-pass mask of
    the inner radius, and filtering twice with one of the three masks is the
    same as filtering once. *)
Theorem band_pass_is_low_then_high :
  forall (rows cols radius_low radius_high : Z) (fft_shifted : Filters.Spectrum),
    Filters.has_shape (Z.to_nat rows) (Z.to_nat cols) fft_shifted ->
    let low := Filters.create_low_pass_mask (rows, cols) radius_high in
    let high := Filters.create_high_pass_mask (rows, cols) radius_low in
    let band := Filters.create_band_pass_mask (rows, cols) radius_low radius_high in
    Filters.apply_filter (Filters.apply_filter fft_shifted low) high
    = Filters.apply_filter fft_shifted band
    /\ Filters.apply_filter (Filters.apply_filter fft_shifted low) low
       = Filters.apply_filter fft_shifted low
    /\ Filters.apply_filter (Filters.apply_filter fft_shifted high) high
       = Filters.apply_filter fft_shifted high
    /\ Filters.apply_filter (Filters.apply_filter fft_shifted band) band
       = Filters.apply_filter fft_shifted band.
Proof.
  intros rows cols rl rh f _ low high band.
  destruct (FilterFacts.masks_binary rows cols rh 0) as (Bl & _ & _).
  destruct (FilterFacts.masks_binary rows cols rl rh) as (_ & Bh & Bb).
  rewrite !FilterFacts.apply_filter_twice.
  unfold low, high, band.
  rewrite !FilterFacts.binary_square by assumption.
  repeat split; reflexivity.
Qed.

Lemma band_pass_is_low_then_high_witness :
  let f : Filters.Spectrum := [[(1, 2); (3, 4)]; [(5, 6); (7, 8)]] in
  Filters.apply_filter
    (Filters.apply_filter f (Filters.create_low_pass_mask (2, 2)%Z 1))
    (Filters.create_high_pass_mask (2, 2)%Z 0)
  = Filters.apply_filter f (Filters.create_band_pass_mask (2, 2)%Z 0 1).
Proof.
  refine (proj1 (band_pass_is_low_then_high
                   2 2 0 1 [[(1, 2); (3, 4)]; [(5, 6); (7, 8)]] _)).
  split; [ reflexivity | repeat constructor ].
Defined.

(** X21: a larger radius lets more through the low-pass mask and less
    through the high-pass mask, entry by entry. *)
Theorem masks_monotone_in_radius :
  forall (rows cols radius radius' : Z) (y x : nat),
    (radius <= radius')%Z ->
    (y < Z.to_nat rows)%nat -> (x < Z.to_nat cols)%nat ->
    Filters.pixel (Filters.create_low_pass_mask (rows, cols) radius) y x 0
    <= Filters.pixel (Filters.create_low_pass_mask (rows, cols) radius') y x 0
    /\ Filters.pixel (Filters.create_high_pass_mask (rows, cols) radius') y x 0
       <= Filters.pixel (Filters.create_high_pass_mask (rows, cols) radius) y x 0.
Proof.
  intros rows cols r r' y x Hr Hy Hx.
  rewrite !MaskFacts.pixel_high_pass, !MaskFacts.pixel_low_pass by assumption.
  set (d2 := ((Z.of_nat x - cols / 2) ^ 2 + (Z.of_nat y - rows / 2) ^ 2)%Z).
  destruct (Z.leb_spec 0 r), (Z.leb_spec d2 (r * r)),
    (Z.leb_spec 0 r'), (Z.leb_spec d2 (r' * r')); simpl; try lra; nia.
Qed.

Lemma masks_monotone_in_radius_witness :
  Filters.pixel (Filters.create_low_pass_mask (4, 4)%Z 1) 0 0 0
  <= Filters.pixel (Filters.create_low_pass_mask (4, 4)%Z 3) 0 0 0
  /\ Filters.pixel (Filters.create_high_pass_mask (4, 4)%Z 3) 0 0 0
     <= Filters.pixel (Filters.create_high_pass_mask (4, 4)%Z 1) 0 0 0.
Proof.
  apply (masks_monotone_in_radius 4 4 1 3 0 0);
    [ lia | vm_compute; lia | vm_compute; lia ].
Defined.

Module DefaultRadii.
Import String.

(** X22: [get_default_radii] has exactly the four keys that
    [run_basic_pipeline] reads; any other key is missing.  For an image
    shape without negative dimension the radii are ordered
    [0 <= band_low <= low_pass = high_pass <= band_high <= min(shape)], so
    the default band is a ring around the default low-pass circle's rim. *)
Theorem default_radii_ordered :
  forall (rows cols : Z),
    let radii := Filters.get_default_radii (rows, cols) in
    let min_dim := Z.min rows cols in
    Filters.getitem radii "low_pass"%string = Some (min_dim / 10)%Z
    /\ Filters.getitem radii "high_pass"%string = Some (min_dim / 10)%Z
    /\ Filters.getitem radii "band_low"%string = Some (min_dim / 20)%Z
    /\ Filters.getitem radii "band_high"%string = Some (min_dim / 5)%Z
    /\ (forall key,
           ~ In key ["low_pass"; "high_pass"; "band_low"; "band_high"]%string ->
           Filters.getitem radii key = None)
    /\ ((0 <= min_dim)%Z ->
        (0 <= min_dim / 20 <= min_dim / 10)%Z
        /\ (min_dim / 10 <= min_dim / 5 <= min_dim)%Z).
Proof.
  intros rows cols radii min_dim.
  repeat (split; [ reflexivity | ]).
  split.
  - intros key Hkey. unfold radii, Filters.getitem, Filters.get_default_radii.
    cbn [find fst].
    repeat match goal with
           | |- context [String.eqb ?a key] =>
               destruct (String.eqb_spec a key) as [<- | ?];
               [ exfalso; apply Hkey; simpl; tauto | ]
           end.
    reflexivity.
  - intros Hmin. repeat split.
    + apply Z.div_pos; lia.
    + apply Z.div_le_compat_l; lia.
    + apply Z.div_le_compat_l; lia.
    + apply Z.div_le_upper_bound; lia.
Qed.

Lemma default_radii_ordered_witness :
  (0 <= Z.min 480 640 / 20 <= Z.min 480 640 / 10)%Z
  /\ (Z.min 480 640 / 10 <= Z.min 480 640 / 5 <= Z.min 480 640)%Z.
Proof.
  apply (proj2 (proj2 (proj2 (proj2 (proj2 (default_radii_ordered 480 640)))))).
  vm_compute. discriminate.
Defined.

End DefaultRadii.

(** ** Properties of the drawing and of the threshold selection *)

Module DrawFacts.
Import TriangleDetector Drawing.

Lemma drawn_points_in (img_ndim : nat) (vertices : list Point)
      (e : DrawEvent) (p : Point) :
  In e (draw_triangle img_ndim vertices) -> In p (drawn_points e) -> In p vertices.
Proof.
  unfold draw_triangle. intros He Hp. apply in_app_or in He.
  destruct He as [He | He].
  - destruct (img_ndim =? 2)%nat; [ | destruct He ].
    destruct He as [<- | []]. destruct Hp.
  - destruct (Nat.ltb_spec (length vertices) 3) as [Hlt | Hge].
    + destruct He as [<- | He]; [ destruct Hp | ].
      apply in_map_iff in He. destruct He as (v & <- & Hv).
      destruct Hp as [<- | []]. exact Hv.
    + apply in_flat_map in He. destruct He as (i & Hi & He).
      apply in_seq in Hi.
      assert (Hmod : ((i + 1) mod 3 < 3)%nat) by (apply Nat.mod_upper_bound; lia).
      destruct He as [<- | [<- | []]]; cbn [drawn_points In] in Hp;
        repeat destruct Hp as [<- | Hp]; try destruct Hp;
        unfold item; apply nth_In; lia.
Qed.

End DrawFacts.

(** X23: [draw_triangle] draws the closed triangle through the first three
    vertices, one circle on each, and ignores further vertices; with fewer
    than three vertices it draws no line, prints a warning and puts one
    circle on each vertex.  Applied to the vertices that
    [find_triangle_vertices] returns, it only draws at points that lie at
    least twice the border margin inside the image. *)
Theorem draw_triangle_draws_detected_vertices :
  (forall (img_ndim : nat) (v0 v1 v2 : Point) (more : list Point),
      Drawing.draw_triangle img_ndim (v0 :: v1 :: v2 :: more)
      = (if (img_ndim =? 2)%nat then [Drawing.CvtColorGray2BGR] else [])
        ++ [ Drawing.CvLine v0 v1; Drawing.CvCircle v0;
             Drawing.CvLine v1 v2; Drawing.CvCircle v1;
             Drawing.CvLine v2 v0; Drawing.CvCircle v2 ])
  /\ (forall (img_ndim : nat) (vertices : list Point),
         (length vertices < 3)%nat ->
         filter Drawing.is_line (Drawing.draw_triangle img_ndim vertices) = []
         /\ flat_map Drawing.drawn_points (Drawing.draw_triangle img_ndim vertices)
            = vertices)
  /\ (forall (lines : list Line) (img_shape : Shape) (out : Stdout)
             (img_ndim : nat) (e : Drawing.DrawEvent) (p : Point),
         In e (Drawing.draw_triangle img_ndim
                 (returned (find_triangle_vertices lines img_shape) out)) ->
         In p (Drawing.drawn_points e) ->
         Auxiliary.inside_margin img_shape p).
Proof.
  split; [ | split ].
  - intros img_ndim v0 v1 v2 more. reflexivity.
  - intros img_ndim vertices H. unfold Drawing.draw_triangle.
    replace (length vertices <? 3)%nat with true
      by (symmetry; now apply Nat.ltb_lt).
    assert (Hcircles : forall vs,
               filter Drawing.is_line (map Drawing.CvCircle vs) = []
               /\ flat_map Drawing.drawn_points (map Drawing.CvCircle vs) = vs).
    { induction vs as [ | v vs [IH1 IH2]]; simpl; [ tauto | ].
      rewrite IH1, IH2. tauto. }
    destruct (Hcircles vertices) as [H1 H2].
    destruct (img_ndim =? 2)%nat; simpl; rewrite H1, H2; tauto.
  - intros lines img_shape out img_ndim e p He Hp.
    apply (DrawFacts.drawn_points_in _ _ _ _ He) in Hp.
    apply VertexFacts.returned_vertex in Hp. exact (proj1 Hp).
Qed.

Lemma draw_triangle_draws_detected_vertices_witness :
  Auxiliary.inside_margin Scenarios.frame (100, 20)%Z.
Proof.
  refine (proj2 (proj2 draw_triangle_draws_detected_vertices)
                Scenarios.inner_triangle Scenarios.frame [] 2%nat
                (Drawing.CvLine (20, 20)%Z (100, 20)%Z) (100, 20)%Z _ _).
  - rewrite ScenarioFacts.inner_triangle_vertices. simpl. right. now left.
  - simpl. right. now left.
Defined.

Module ThresholdFacts.
Import Histogram.

Lemma threshold_loop_spec (stdin : list Typed) :
  match threshold_loop stdin with
  | (Returned threshold, unread, printed) =>
      exists rejected,
        stdin = rejected ++ TypedInt threshold :: unread
        /\ forallb (fun line => negb (acceptable line)) rejected = true
        /\ acceptable (TypedInt threshold) = true
        /\ printed = rejections rejected ++ [Prompt]
  | (EOFError, unread, printed) =>
      unread = []
      /\ forallb (fun line => negb (acceptable line)) stdin = true
      /\ printed = rejections stdin ++ [Prompt]
  end.
Proof.
  induction stdin as [ | line rest IH]; simpl.
  - repeat split.
  - destruct line as [n | ].
    + destruct ((0 <=? n) && (n <=? 255))%Z eqn:E.
      * exists []. simpl. rewrite E. repeat split.
      * destruct (threshold_loop rest) as [[[t | ] unread] printed].
        -- destruct IH as (rejected & -> & Hrej & Hacc & ->).
           exists (TypedInt n :: rejected). simpl. rewrite E, Hrej.
           repeat split. exact Hacc.
        -- destruct IH as (-> & Hrej & ->). simpl. rewrite E, Hrej.
           repeat split.
    + destruct (threshold_loop rest) as [[[t | ] unread] printed].
      * destruct IH as (rejected & -> & Hrej & Hacc & ->).
        exists (TypedOther :: rejected). simpl. rewrite Hrej.
        repeat split. exact Hacc.
      * destruct IH as (-> & Hrej & ->). simpl. rewrite Hrej.
        repeat split.
Qed.

Lemma binary_pixels (threshold : Z) (img : list (list Z)) :
  Forall (fun p => p = 0%Z \/ p = 255%Z)
         (concat (map (map (threshold_binary_inv threshold 255)) img)).
Proof.
  induction img as [ | row img IH]; simpl; [ constructor | ].
  apply Forall_app. split; [ | exact IH ].
  apply Forall_forall. intros p Hp. apply in_map_iff in Hp.
  destruct Hp as (q & <- & _). unfold threshold_binary_inv.
  destruct (q >? threshold)%Z; tauto.
Qed.

Lemma count_binary (l : list Z) :
  Forall (fun p => p = 0%Z \/ p = 255%Z) l ->
  (length (filter (Z.eqb 255) l) + length (filter (Z.eqb 0) l) = length l)%nat.
Proof.
  induction 1 as [ | p l [-> | ->] _ IH]; simpl; lia.
Qed.

Lemma size_map (f : Z -> Z) (img : list (list Z)) :
  size (map (map f) img) = size img.
Proof.
  unfold size. f_equal.
  induction img as [ | row img IH]; simpl; [ reflexivity | ].
  rewrite !length_app, length_map. now rewrite IH.
Qed.

End ThresholdFacts.

(** X24: when [get_threshold_from_user] returns, the threshold lies in
    0..255 and is the first typed line that is an integer in that range, and
    the lines after it are left unread.  What it prints is the help, then for
    each line before the accepted one the prompt followed by the error
    message for that line ("must be between 0 and 255" for an integer out of
    range, "enter a valid integer" for anything else), then the prompt at
    which the accepted line is typed.  If no typed line is acceptable the
    function never returns a threshold: it answers every line in the same
    way and ends with the [EOFError] of [input] at a last prompt. *)
Theorem get_threshold_from_user_first_acceptable :
  forall (stdin : list Histogram.Typed),
    match Histogram.get_threshold_from_user stdin with
    | (Histogram.Returned threshold, unread, printed) =>
        (0 <= threshold <= 255)%Z
        /\ exists rejected,
            stdin = rejected ++ Histogram.TypedInt threshold :: unread
            /\ forallb (fun line => negb (Histogram.acceptable line)) rejected = true
            /\ printed
               = Histogram.PrintHelp
                   :: flat_map (fun line =>
                                  [ Histogram.Prompt;
                                    match line with
                                    | Histogram.TypedInt _ =>
                                        Histogram.PrintMustBeInRange
                                    | Histogram.TypedOther =>
                                        Histogram.PrintNotAnInteger
                                    end ])
                               rejected
                   ++ [Histogram.Prompt]
    | (Histogram.EOFError, unread, printed) =>
        unread = []
        /\ forallb (fun line => negb (Histogram.acceptable line)) stdin = true
        /\ printed
           = Histogram.PrintHelp
               :: flat_map (fun line =>
                              [ Histogram.Prompt;
                                match line with
                                | Histogram.TypedInt _ =>
                                    Histogram.PrintMustBeInRange
                                | Histogram.TypedOther =>
                                    Histogram.PrintNotAnInteger
                                end ])
                           stdin
               ++ [Histogram.Prompt]
    end.
Proof.
  intros stdin. unfold Histogram.get_threshold_from_user.
  pose proof (ThresholdFacts.threshold_loop_spec stdin) as H.
  destruct (Histogram.threshold_loop stdin) as [[[t | ] unread] printed].
  - destruct H as (rejected & E & Hrej & Hacc & ->). split.
    + simpl in Hacc. apply andb_prop in Hacc.
      destruct Hacc as [H1 H2]. apply Z.leb_le in H1, H2. lia.
    + exists rejected. repeat split; assumption.
  - destruct H as (E & Hrej & ->). repeat split; assumption.
Qed.

(** X25: [apply_binary_threshold] returns an image of the same shape whose
    pixels are all 0 or 255: 255 where the input pixel is at most the
    threshold (a pixel equal to the threshold included) and 0 where it
    exceeds it; the black and the white counts it prints add up to the total
    number of pixels. *)
Theorem apply_binary_threshold_counts :
  forall (img : list (list Z)) (threshold : Z),
    let '(binary, (black_pixels, white_pixels, total_pixels)) :=
      Histogram.apply_binary_threshold img threshold in
    binary = map (map (fun p => if (p <=? threshold)%Z then 255 else 0)%Z) img
    /\ map (@length Z) binary = map (@length Z) img
    /\ Forall (fun p => p = 0 \/ p = 255)%Z (concat binary)
    /\ (black_pixels + white_pixels = total_pixels)%Z
    /\ total_pixels = Histogram.size img.
Proof.
  intros img threshold. unfold Histogram.apply_binary_threshold.
  set (binary := map (map (Histogram.threshold_binary_inv threshold 255)) img).
  pose proof (ThresholdFacts.binary_pixels threshold img) as Hbin.
  fold binary in Hbin.
  split; [ | split; [ | split; [ exact Hbin | split ] ] ].
  - unfold binary. apply map_ext. intros row. apply map_ext. intros p.
    unfold Histogram.threshold_binary_inv.
    destruct (Z.gtb_spec p threshold), (Z.leb_spec p threshold); try reflexivity; lia.
  - unfold binary. rewrite map_map. apply map_ext. intros row. apply length_map.
  - unfold Histogram.count_equal, Histogram.size.
    rewrite <- Nat2Z.inj_add. f_equal.
    now apply ThresholdFacts.count_binary.
  - apply ThresholdFacts.size_map.
Qed.
